(** * Verification of the crawl-and-extract core of [app.py]

    A shallow embedding of [WebsiteAnalyzer] (src/app.py): the URL
    normaliser, the link resolver, the record accumulator, the crawl
    controller and the report formatter, followed by the properties that
    the specification states about them.

    Conventions of the embedding.
    - A Python [str] is a [string]; the characters are taken to be ASCII
      (code points below 128): [lower], [upper] and [strip] act on the ASCII
      letters and the ASCII white space, and leave every other character
      alone.
    - A Python [dict] is an association list in insertion order: assigning
      to a key that is present replaces the value in place, assigning to a
      new key appends the pair at the end.
    - A Python [set] of strings is the list of its distinct elements in the
      order in which they were added; the order in which Python iterates
      over the set is a parameter (it depends on string hashes).
    - A call that can raise returns an [option] or a sum: [None] and [inl]
      stand for the exception.
    - [urlparse] and [urljoin] come from [urllib.parse], the page fetcher
      and the language model are external collaborators: the controller is
      parametrised by them, and a model of the two [urllib] functions is
      given for the concrete runs. *)

From Stdlib Require Import String Ascii List Bool Arith ZArith Lia Permutation DecimalString.
Import ListNotations.
Open Scope string_scope.

(** ** Python string primitives *)

Module Py.

Definition is_space (c : ascii) : bool :=
  let n := nat_of_ascii c in
  (((9 <=? n) && (n <=? 13)) || ((28 <=? n) && (n <=? 32)))%nat.

Definition lower_char (c : ascii) : ascii :=
  let n := nat_of_ascii c in
  if ((65 <=? n) && (n <=? 90))%nat then ascii_of_nat (n + 32) else c.

Definition upper_char (c : ascii) : ascii :=
  let n := nat_of_ascii c in
  if ((97 <=? n) && (n <=? 122))%nat then ascii_of_nat (n - 32) else c.

Fixpoint map_string (f : ascii -> ascii) (s : string) : string :=
  match s with
  | EmptyString => EmptyString
  | String c s' => String (f c) (map_string f s')
  end.

(** [s.lower()] and [s.upper()] *)
Definition lower : string -> string := map_string lower_char.
Definition upper : string -> string := map_string upper_char.

(** [c in chars], for a character *)
Fixpoint mem_char (c : ascii) (chars : string) : bool :=
  match chars with
  | EmptyString => false
  | String d chars' => Ascii.eqb c d || mem_char c chars'
  end.

Fixpoint lstrip_by (p : ascii -> bool) (s : string) : string :=
  match s with
  | EmptyString => EmptyString
  | String c s' => if p c then lstrip_by p s' else s
  end.

Fixpoint rstrip_by (p : ascii -> bool) (s : string) : string :=
  match s with
  | EmptyString => EmptyString
  | String c s' =>
      match rstrip_by p s' with
      | EmptyString => if p c then EmptyString else String c EmptyString
      | r => String c r
      end
  end.

(** [s.strip()], [s.strip(chars)], [s.lstrip(chars)], [s.rstrip(chars)] *)
Definition strip (s : string) : string :=
  rstrip_by is_space (lstrip_by is_space s).
Definition strip_chars (chars s : string) : string :=
  rstrip_by (fun c => mem_char c chars) (lstrip_by (fun c => mem_char c chars) s).
Definition lstrip_chars (chars s : string) : string :=
  lstrip_by (fun c => mem_char c chars) s.
Definition rstrip_chars (chars s : string) : string :=
  rstrip_by (fun c => mem_char c chars) s.

(** [s.startswith(p)] *)
Definition startswith (p s : string) : bool := String.prefix p s.

(** [sub in s] *)
Fixpoint contains (sub s : string) : bool :=
  String.prefix sub s ||
  match s with
  | EmptyString => false
  | String _ s' => contains sub s'
  end.

(** [s[n:]] *)
Fixpoint drop (n : nat) (s : string) : string :=
  match n, s with
  | O, _ => s
  | S _, EmptyString => EmptyString
  | S k, String _ s' => drop k s'
  end.

(** [s.split(sep)] for a non-empty separator: [skip] counts the characters
    of a separator just recognised that are still to be passed over, [cur]
    is the piece being read. *)
Fixpoint split_go (sep s : string) (skip : nat) (cur : string) : list string :=
  match s with
  | EmptyString => [cur]
  | String c s' =>
      match skip with
      | S k => split_go sep s' k cur
      | O =>
          if String.prefix sep s
          then cur :: split_go sep s' (String.length sep - 1) EmptyString
          else split_go sep s' 0 (cur ++ String c EmptyString)
      end
  end.

Definition split (sep s : string) : list string := split_go sep s 0 EmptyString.

(** [s.split(sep, 1)]: [None] is the one-element list [[s]], [Some (a, b)]
    the two-element list [[a, b]]. *)
Fixpoint split1 (sep s : string) : option (string * string) :=
  match s with
  | EmptyString => None
  | String c s' =>
      if String.prefix sep s then Some (EmptyString, drop (String.length sep) s)
      else match split1 sep s' with
           | Some (a, b) => Some (String c a, b)
           | None => None
           end
  end.

(** [sep.join(l)] *)
Definition join (sep : string) (l : list string) : string := String.concat sep l.

(** [s.replace(old, new)] for a non-empty [old]: the pieces between the
    occurrences of [old], found left to right without overlap, joined by
    [new]. *)
Definition replace (old new s : string) : string := join new (split old s).

(** [l[0]] of a list of strings that [split] returned (never empty) *)
Definition first (l : list string) : string := hd EmptyString l.

(** [l[-1]] *)
Definition last (l : list string) : string := List.last l EmptyString.

Definition nl : string := String (ascii_of_nat 10) EmptyString.

(** [x in l], for a list of strings *)
Definition mem (x : string) (l : list string) : bool :=
  existsb (String.eqb x) l.

End Py.

(** ** Python dictionaries with string keys *)

Module Dict.

Section WithValue.
Context {V : Type}.

Definition t := list (string * V).

Fixpoint get (k : string) (d : t) : option V :=
  match d with
  | [] => None
  | (k', v) :: d' => if String.eqb k k' then Some v else get k d'
  end.

Definition mem (k : string) (d : t) : bool :=
  match get k d with Some _ => true | None => false end.

(** [d[k] = v] *)
Fixpoint set (k : string) (v : V) (d : t) : t :=
  match d with
  | [] => [(k, v)]
  | (k', v') :: d' =>
      if String.eqb k k' then (k, v) :: d' else (k', v') :: set k v d'
  end.

(** [d.update(e)] *)
Definition update (d e : t) : t :=
  fold_left (fun acc kv => set (fst kv) (snd kv) acc) e d.

Definition keys (d : t) : list string := map fst d.

End WithValue.
Arguments t : clear implicits.

End Dict.

(** ** The record accumulator *)

(** A section of [found_info] is a field map ([{}]) or, for ['Services'],
    a list of field maps ([[]]). *)
Inductive section_data : Type :=
| Fields (d : Dict.t string)
| ServiceList (l : list (Dict.t string)).

Definition info : Type := Dict.t section_data.

(** [sections] of [_update_found_info], in the order of the dictionary *)
Definition sections : list (string * string) :=
  [("AGENCY LEVEL", "Agency Level");
   ("SITE LEVEL", "Site Level");
   ("SERVICE/PROGRAM", "Services")].

Definition sentinels : list string :=
  ["(missing)"; "(not mentioned)"; "not specified"; "not available"].

(** [value.lower() in ['(missing)', ...]] *)
Definition is_sentinel (value : string) : bool :=
  Py.mem (Py.lower value) sentinels.

(** [value and value.lower() not in [...]] *)
Definition keeps (value : string) : bool :=
  negb (String.eqb value EmptyString) && negb (is_sentinel value).

(** The [for header_key, header_value in sections.items()] loop: the value
    of the first header whose key occurs in the upper-cased line. *)
Fixpoint find_header (hs : list (string * string)) (upper_line : string)
  : option string :=
  match hs with
  | [] => None
  | (header_key, header_value) :: hs' =>
      if Py.contains header_key upper_line then Some header_value
      else find_header hs' upper_line
  end.

Definition empty_section (section : string) : section_data :=
  if String.eqb section "Services" then ServiceList [] else Fields [].

(** The state of the parsing loop.  [current_service] is [None] or the
    dictionary appended last to [temp_info['Services']]: the flag says
    which, and the writes to it go to the last entry of that list. *)
Record parse_state : Type := mkParse {
  current_section : option string;
  temp_info : info;
  current_service : bool
}.

Definition parse_init : parse_state := mkParse None [] false.

(** [temp_info['Services'].append({})] *)
Definition append_service (temp : info) : option info :=
  match Dict.get "Services" temp with
  | Some (ServiceList l) => Some (Dict.set "Services" (ServiceList (l ++ [[]])) temp)
  | _ => None
  end.

Fixpoint set_last (key value : string) (l : list (Dict.t string))
  : option (list (Dict.t string)) :=
  match l with
  | [] => None
  | [d] => Some [Dict.set key value d]
  | d :: l' => option_map (cons d) (set_last key value l')
  end.

(** [current_service[key] = value] *)
Definition set_service_field (key value : string) (temp : info) : option info :=
  match Dict.get "Services" temp with
  | Some (ServiceList l) =>
      option_map (fun l' => Dict.set "Services" (ServiceList l') temp)
                 (set_last key value l)
  | _ => None
  end.

(** [temp_info[section][key] = value] *)
Definition set_field (section key value : string) (temp : info) : option info :=
  match Dict.get section temp with
  | Some (Fields d) => Some (Dict.set section (Fields (Dict.set key value d)) temp)
  | _ => None
  end.

(** What a line outside [Services] stores for its value: the whole value
    for an hour field with a colon, and otherwise [value.split(':')[0]] when
    the value has a colon *)
Definition stored_value (key value : string) : string :=
  if Py.contains "hour" (Py.lower key) && Py.contains ":" value then value
  else if Py.contains ":" value then Py.first (Py.split ":" value) else value.

(** [current_section == 'Services'] *)
Definition in_services (cs : option string) : bool :=
  match cs with
  | Some section => String.eqb section "Services"
  | None => false
  end.

(** One iteration of [for line in new_info.split('\n')]; [None] is the
    [ValueError] of unpacking a line without a colon. *)
Definition parse_line (st : parse_state) (raw : string) : option parse_state :=
  let line := Py.strip raw in
  if String.eqb line EmptyString then Some st else
  let upper_line := Py.upper line in
  let st :=
    match find_header sections upper_line with
    | Some header_value =>
        mkParse (Some header_value)
                (if Dict.mem header_value (temp_info st) then temp_info st
                 else Dict.set header_value (empty_section header_value) (temp_info st))
                (current_service st)
    | None => st
    end in
  if in_services (current_section st) then
      match (if Py.startswith "- Name:" line
             then option_map (fun t => (t, true)) (append_service (temp_info st))
             else Some (temp_info st, current_service st)) with
      | None => None
      | Some (temp, has_service) =>
          if Py.startswith "- " line && has_service then
            match Py.split1 ":" (Py.drop 2 line) with
            | None => None
            | Some (key, value) =>
                let key := Py.strip key in
                let value := Py.strip value in
                if keeps value then
                  option_map (fun t => mkParse (current_section st) t has_service)
                             (set_service_field key value temp)
                else Some (mkParse (current_section st) temp has_service)
            end
          else Some (mkParse (current_section st) temp has_service)
      end
  else
      if Py.contains ":" line && negb (Py.startswith "http" line) then
        match current_section st with
        | Some section =>
            match Py.split1 ":" line with
            | None => None
            | Some (key, value) =>
                let key := Py.strip key in
                let value := Py.strip value in
                if negb (Py.startswith "Field" key) && keeps value then
                  option_map (fun t => mkParse (current_section st) t (current_service st))
                             (set_field section key (stored_value key value)
                                        (temp_info st))
                else Some st
            end
        | None => Some st
        end
      else Some st.

Fixpoint parse_lines (st : parse_state) (lines : list string) : option parse_state :=
  match lines with
  | [] => Some st
  | line :: lines' =>
      match parse_line st line with
      | Some st' => parse_lines st' lines'
      | None => None
      end
  end.

(** The first loop of [_update_found_info]: the [temp_info] it builds. *)
Definition parse_new_info (new_info : string) : option info :=
  option_map temp_info (parse_lines parse_init (Py.split Py.nl new_info)).

Definition option_eqb (a b : option string) : bool :=
  match a, b with
  | Some x, Some y => String.eqb x y
  | None, None => true
  | _, _ => false
  end.

(** The inner loop over [self.found_info['Services']] for one
    [new_service]: the first entry with the same [Name] is updated, and a
    service that matches none is appended. *)
Fixpoint merge_service (new_service : Dict.t string) (existing : list (Dict.t string))
  : list (Dict.t string) :=
  match existing with
  | [] => [new_service]
  | existing_service :: rest =>
      if option_eqb (Dict.get "Name" existing_service) (Dict.get "Name" new_service)
      then Dict.update existing_service new_service :: rest
      else existing_service :: merge_service new_service rest
  end.

Definition merge_services (existing data : list (Dict.t string))
  : list (Dict.t string) :=
  fold_left (fun acc new_service => merge_service new_service acc) data existing.

(** The body of [for key, value in data.items()] *)
Definition merge_field (d : Dict.t string) (kv : string * string) : Dict.t string :=
  let (key, value) := kv in
  match Dict.get key d with
  | None => Dict.set key value d
  | Some old =>
      if (String.length old <? String.length value)%nat
      then Dict.set key value d else d
  end.

Definition merge_fields (existing data : Dict.t string) : Dict.t string :=
  fold_left merge_field data existing.

(** The body of [for section, data in temp_info.items()].  A section whose
    shape does not fit its name ([None] here) does not arise in a record
    built from the empty one, see [merge_info_total]. *)
Definition merge_section (found : info) (sd : string * section_data) : option info :=
  let (section, data) := sd in
  let found :=
    if Dict.mem section found then found
    else Dict.set section (empty_section section) found in
  if String.eqb section "Services" then
    match Dict.get section found, data with
    | Some (ServiceList existing), ServiceList l =>
        Some (Dict.set section (ServiceList (merge_services existing l)) found)
    | _, _ => None
    end
  else
    match Dict.get section found, data with
    | Some (Fields existing), Fields d =>
        Some (Dict.set section (Fields (merge_fields existing d)) found)
    | _, _ => None
    end.

Fixpoint merge_info (found : info) (temp : info) : option info :=
  match temp with
  | [] => Some found
  | sd :: temp' =>
      match merge_section found sd with
      | Some found' => merge_info found' temp'
      | None => None
      end
  end.

(** [_update_found_info]: [None] when the call raises, which happens
    before [self.found_info] is touched. *)
Definition _update_found_info (new_info : string) (found_info : info) : option info :=
  match parse_new_info new_info with
  | Some temp => merge_info found_info temp
  | None => None
  end.

(** [self.found_info] after the call, whether it returned or raised *)
Definition found_after (new_info : string) (found_info : info) : info :=
  match _update_found_info new_info found_info with
  | Some found' => found'
  | None => found_info
  end.

Definition lines (l : list string) : string := Py.join Py.nl l.

(** ** Exceptions *)

(** The outcome of a call that may raise; [Raise] carries [str(e)]. *)
Inductive outcome (A : Type) : Type :=
| Return (a : A)
| Raise (msg : string).
Arguments Return {A} a.
Arguments Raise {A} msg.

Definition bind {A B : Type} (x : outcome A) (k : A -> outcome B) : outcome B :=
  match x with
  | Return a => k a
  | Raise msg => Raise msg
  end.

Notation "x <- e ;; k" := (bind e (fun x => k))
  (at level 61, e at next level, right associativity).

(** ** [urllib.parse] *)

Record ParseResult : Type := mkParseResult {
  scheme : string;
  netloc : string;
  path : string;
  params : string;
  query : string;
  fragment : string
}.

(** A model of [urlparse], [urlunparse] and [urljoin] of CPython's
    [urllib/parse.py] for ASCII URLs that have no tab, carriage return or
    line feed, no leading control character or space, and no square bracket
    in the host; it is used for the concrete runs only. *)
Module Urllib.

Definition is_alpha (c : ascii) : bool :=
  let n := nat_of_ascii c in
  (((65 <=? n) && (n <=? 90)) || ((97 <=? n) && (n <=? 122)))%nat.

Definition is_scheme_char (c : ascii) : bool :=
  let n := nat_of_ascii c in
  is_alpha c || ((48 <=? n) && (n <=? 57))%nat || Py.mem_char c "+-.".

Fixpoint all_chars (p : ascii -> bool) (s : string) : bool :=
  match s with
  | EmptyString => true
  | String c s' => p c && all_chars p s'
  end.

(** The text before and from the first character of [s] that is in
    [delims] *)
Fixpoint break_at (delims s : string) : string * string :=
  match s with
  | EmptyString => (EmptyString, EmptyString)
  | String c s' =>
      if Py.mem_char c delims then (EmptyString, s)
      else let (a, b) := break_at delims s' in (String c a, b)
  end.

Definition split_scheme (url : string) : string * string :=
  match Py.split1 ":" url with
  | Some (String c0 rest as sch, after) =>
      if is_alpha c0 && all_chars is_scheme_char sch
      then (Py.lower sch, after) else (EmptyString, url)
  | _ => (EmptyString, url)
  end.

Definition uses_params : list string :=
  [EmptyString; "ftp"; "hdl"; "prospero"; "http"; "imap"; "https"; "shttp"; "rtsp";
   "rtspu"; "sip"; "sips"; "mms"; "sftp"; "tel"].

Definition uses_relative : list string :=
  [EmptyString; "ftp"; "http"; "gopher"; "nntp"; "imap"; "wais"; "file"; "https";
   "shttp"; "mms"; "prospero"; "rtsp"; "rtspu"; "sftp"; "svn"; "svn+ssh";
   "ws"; "wss"].

Definition uses_netloc : list string :=
  [EmptyString; "ftp"; "http"; "gopher"; "nntp"; "telnet"; "imap"; "wais"; "file";
   "mms"; "https"; "shttp"; "snews"; "prospero"; "rtsp"; "rtspu"; "rsync";
   "svn"; "svn+ssh"; "sftp"; "nfs"; "git"; "git+ssh"; "ws"; "wss"].

(** [_splitparams]: the parameters of the last path segment *)
Definition splitparams (url : string) : string * string :=
  let segs := Py.split "/" url in
  let last_seg := Py.last segs in
  match Py.split1 ";" last_seg with
  | None => (url, EmptyString)
  | Some (seg, ps) =>
      (Py.join "/" (removelast segs ++ [seg]), ps)
  end.

Definition urlparse (url : string) : ParseResult :=
  let (sch, url) := split_scheme url in
  let (net, url) :=
    if Py.startswith "//" url then break_at "/?#" (Py.drop 2 url)
    else (EmptyString, url) in
  let (url, frag) :=
    match Py.split1 "#" url with Some p => p | None => (url, EmptyString) end in
  let (url, qry) :=
    match Py.split1 "?" url with Some p => p | None => (url, EmptyString) end in
  let (url, ps) :=
    if Py.mem sch uses_params && Py.contains ";" url then splitparams url
    else (url, EmptyString) in
  mkParseResult sch net url ps qry frag.

Definition nonempty (s : string) : bool := negb (String.eqb s EmptyString).

Definition urlunparse (r : ParseResult) : string :=
  let url := if nonempty (params r) then path r ++ ";" ++ params r else path r in
  let url :=
    if nonempty (netloc r) ||
       (nonempty (scheme r) && Py.mem (scheme r) uses_netloc &&
        negb (Py.startswith "//" url))
    then "//" ++ netloc r ++
         (if nonempty url && negb (Py.startswith "/" url) then "/" ++ url else url)
    else url in
  let url := if nonempty (scheme r) then scheme r ++ ":" ++ url else url in
  let url := if nonempty (query r) then url ++ "?" ++ query r else url in
  if nonempty (fragment r) then url ++ "#" ++ fragment r else url.

(** The loop of [urljoin] that resolves the [.] and [..] segments *)
Fixpoint resolve_dots (segments resolved : list string) : list string :=
  match segments with
  | [] => resolved
  | seg :: segments' =>
      if String.eqb seg ".." then resolve_dots segments' (removelast resolved)
      else if String.eqb seg "." then resolve_dots segments' resolved
      else resolve_dots segments' (resolved ++ [seg])
  end.

(** [segments[1:-1] = filter(None, segments[1:-1])] *)
Definition filter_inner (segments : list string) : list string :=
  match segments with
  | [] => []
  | [a] => [a]
  | a :: rest =>
      a :: filter nonempty (removelast rest) ++ [List.last rest EmptyString]
  end.

Definition urljoin (base url : string) : string :=
  if String.eqb base EmptyString then url else
  if String.eqb url EmptyString then base else
  let b := urlparse base in
  let u := urlparse url in
  let u_scheme := if nonempty (scheme u) then scheme u else scheme b in
  if negb (String.eqb u_scheme (scheme b)) || negb (Py.mem u_scheme uses_relative)
  then url
  else if Py.mem u_scheme uses_netloc && nonempty (netloc u)
  then urlunparse (mkParseResult u_scheme (netloc u) (path u) (params u)
                                 (query u) (fragment u))
  else
    let net := if Py.mem u_scheme uses_netloc then netloc b else netloc u in
    if negb (nonempty (path u)) && negb (nonempty (params u))
    then urlunparse (mkParseResult u_scheme net (path b) (params b)
                       (if nonempty (query u) then query u else query b)
                       (fragment u))
    else
      let base_parts := Py.split "/" (path b) in
      let base_parts :=
        if nonempty (Py.last base_parts) then removelast base_parts
        else base_parts in
      let segments :=
        if Py.startswith "/" (path u) then Py.split "/" (path u)
        else filter_inner (base_parts ++ Py.split "/" (path u)) in
      let resolved := resolve_dots segments [] in
      let resolved :=
        if Py.mem (Py.last segments) ["."; ".."] then (resolved ++ [EmptyString])%list
        else resolved in
      let joined := Py.join "/" resolved in
      urlunparse (mkParseResult u_scheme net
                    (if nonempty joined then joined else "/")
                    (params u) (query u) (fragment u)).

End Urllib.

(** ** Python sets of strings *)

Module PySet.

Definition t := list string.

(** [s.add(x)] *)
Definition add (x : string) (s : t) : t :=
  if Py.mem x s then s else (s ++ [x])%list.

(** [s.update(l)] and, from the empty set, [set(l)] *)
Definition update (s : t) (l : list string) : t :=
  fold_left (fun acc x => add x acc) l s.

End PySet.

(** ** The analyzer *)

Record scraped : Type := mkScraped {
  content : string;
  title : string;
  page_url : string;
  internal_links : list string
}.

(** What the two prompt templates embed *)
Inductive prompt : Type :=
| CustomPrompt (custom_query url content : string) (found : Dict.t string)
               (links : list string)
| DefaultPrompt (url content : string) (found : info) (missing : list string)
                (links : list string).

(** The attributes of [WebsiteAnalyzer] that [__init__] sets, but for the
    two collaborators [llm] and [scraper] *)
Record analyzer : Type := mkAnalyzer {
  visited_urls : PySet.t;
  base_url : option string;
  found_info : info;
  missing_info : PySet.t;
  failed_urls : PySet.t;
  all_internal_links : PySet.t
}.

(** [WebsiteAnalyzer()] *)
Definition init : analyzer := mkAnalyzer [] None [] [] [] [].

Inductive metadata : Type :=
| Skipped (url : string)
| Failed (url error : string)
| Page (title url : string) (links : list string).

Record result : Type := mkResult {
  analysis : string;
  meta : metadata
}.

Definition quotes : string := String "'" (String (ascii_of_nat 34) EmptyString).

(** [_clean_url]; [split1] finds the first ["://"] when there is one. *)
Definition _clean_url (url : string) : string :=
  let url := Py.strip_chars quotes url in
  match Py.split1 "://" url with
  | Some (protocol, rest) => protocol ++ "://" ++ Py.replace "//" "/" rest
  | None => url
  end.

Definition service_keys : list string :=
  ["Name"; "AKA Names"; "Phone Numbers"; "Description";
   "Days/Hours of Operation"; "Eligibility"; "Geographic Area Served";
   "Documents Required"; "Application/Intake Process";
   "Fees/Payment Options"; "Taxonomy Terms (Services/Targets)"].

Definition str_of_nat (n : nat) : string :=
  DecimalString.NilEmpty.string_of_uint (Nat.to_uint n).

Section Analyzer.

(** [urllib.parse.urlparse] and [urljoin] *)
Variable urlparse : string -> outcome ParseResult.
Variable urljoin : string -> string -> outcome string.
(** The order in which Python iterates over a set, given its elements in
    the order of their insertion *)
Variable iter : list string -> list string.
(** [self.scraper.scrape_website] and [self.llm.invoke] *)
Variable scrape_website : string -> outcome scraped.
Variable llm_invoke : prompt -> outcome string.
(** What [self._parse_custom_info] does when it is called; for the class
    as it is, see [_parse_custom_info] below, which raises. *)
Variable _parse_custom_info : string -> outcome (Dict.t string).

Definition _normalize_url (url : string) : outcome string :=
  let url := _clean_url url in
  parsed <- urlparse url ;;
  let normalized := scheme parsed ++ "://" ++ netloc parsed ++ path parsed in
  Return (Py.lower (Py.rstrip_chars "/" normalized)).

(** [mapM] for the list comprehension over [paths] *)
Fixpoint join_all (base : string) (paths : list string) : outcome (list string) :=
  match paths with
  | [] => Return []
  | p :: paths' =>
      u <- urljoin base p ;;
      us <- join_all base paths' ;;
      Return (u :: us)
  end.

(** The test of the inner matching loop *)
Definition links_match (possible_url available_link : string) : outcome bool :=
  p <- _normalize_url possible_url ;;
  a <- _normalize_url available_link ;;
  let clean_possible := Py.last (Py.split "://" (Py.rstrip_chars "/" p)) in
  let clean_available := Py.last (Py.split "://" (Py.rstrip_chars "/" a)) in
  Return (Py.contains clean_possible clean_available
          || Py.contains clean_available clean_possible).

Fixpoint match_possible (possible_urls : list string) (available_link : string)
  : outcome bool :=
  match possible_urls with
  | [] => Return false
  | possible_url :: rest =>
      m <- links_match possible_url available_link ;;
      if m then Return true else match_possible rest available_link
  end.

Fixpoint match_available (possible_urls available_links : list string)
  : outcome (option string) :=
  match available_links with
  | [] => Return None
  | available_link :: rest =>
      m <- match_possible possible_urls available_link ;;
      if m then Return (Some available_link)
      else match_available possible_urls rest
  end.

(** The same-domain fallback loop *)
Fixpoint same_domain (base : string) (possible_urls : list string)
  : outcome (option string) :=
  match possible_urls with
  | [] => Return None
  | possible_url :: rest =>
      parsed_url <- urlparse possible_url ;;
      parsed_base <- urlparse base ;;
      if String.eqb (netloc parsed_url) (netloc parsed_base)
      then Return (Some possible_url)
      else same_domain base rest
  end.

(** [_normalize_and_validate_url], with [self.base_url] (set by then) and
    [self.visited_urls]; [Return None] is Python's [None]. *)
Definition _normalize_and_validate_url (base : string) (visited : PySet.t)
    (url : string) (available_links : list string) : outcome (option string) :=
  let url := _clean_url url in
  possible_urls <-
    (if negb (Py.startswith "http://" url || Py.startswith "https://" url) then
       parsed_base <- urlparse base ;;
       current <- match iter visited with
                  | [] => Raise "list index out of range"
                  | l => Return (Py.last l)
                  end ;;
       parsed_current <- urlparse current ;;
       let current_path := path parsed_current in
       let current_context :=
         match Py.split "/" current_path with
         | _ :: seg :: _ => if Urllib.nonempty current_path then seg else EmptyString
         | _ => EmptyString
         end in
       let paths :=
         [Py.lstrip_chars "/" url;
          current_context ++ "/" ++ Py.lstrip_chars "/" url;
          "bloomington/" ++ Py.lstrip_chars "/" url] in
       join_all base paths
     else Return [url]) ;;
  found <- match_available possible_urls available_links ;;
  match found with
  | Some available_link => Return (Some available_link)
  | None => same_domain base possible_urls
  end.

(** The text that [_extract_next_urls] takes for the proposed URL: the
    first line of what follows the marker, up to an opening parenthesis *)
Definition next_url_value (next_url_section : string) : string :=
  Py.strip (Py.first (Py.split "(" (Py.first (Py.split Py.nl (Py.strip next_url_section))))).

(** [_extract_next_urls]; every exception inside is caught and gives [[]]. *)
Definition _extract_next_urls (base : string) (visited : PySet.t)
    (analysis : string) (available_links : list string) : list string :=
  match nth_error (Py.split "NEXT_URL:" analysis) 1 with
  | None => []
  | Some next_url_section =>
      let next_url := next_url_value next_url_section in
      if String.eqb (Py.lower next_url) "none" then []
      else
        match (next_url <- (if Py.startswith "/" next_url
                            then urljoin base next_url else Return next_url) ;;
               _normalize_and_validate_url base visited next_url available_links) with
        | Return (Some full_url) =>
            if Urllib.nonempty full_url then [full_url] else []
        | Return None => []
        | Raise _ => []
        end
  end.

(** *** The report formatter *)

Local Infix "+++" := (@List.app string) (at level 60, right associativity).

(** A section read as a field map or as the service list.  A record built
    from the empty one holds a list under ['Services'] and field maps
    elsewhere, so that the other shape is not met, see
    [visit_well_formed]. *)
Definition fields_of (data : section_data) : Dict.t string :=
  match data with Fields d => d | ServiceList _ => [] end.
Definition services_of (data : section_data) : list (Dict.t string) :=
  match data with ServiceList l => l | Fields _ => [] end.

Definition format_field (kv : string * string) : string :=
  fst kv ++ ": " ++ snd kv.

Definition format_section (found : info) (section : string) : list string :=
  match Dict.get section found with
  | Some data =>
      ("=== " ++ section ++ " ===" ++ Py.nl)
      :: map format_field (fields_of data) +++ [EmptyString]
  | None => []
  end.

Definition format_service_field (service : Dict.t string) (key : string)
  : list string :=
  match Dict.get key service with
  | Some value => ["  " ++ key ++ ": " ++ value]
  | None => []
  end.

(** The body of [for idx, service in enumerate(..., 1)], from [idx] on *)
Fixpoint format_services (idx : nat) (services : list (Dict.t string))
  : list string :=
  match services with
  | [] => []
  | service :: rest =>
      ("Service " ++ str_of_nat idx ++ ":")
      :: flat_map (format_service_field service) service_keys
      +++ [EmptyString] +++ format_services (S idx) rest
  end.

Definition source_urls (self : analyzer) : string :=
  Py.join ", " (iter (visited_urls self)).

Definition _format_final_results (self : analyzer) : string :=
  let found := found_info self in
  let services :=
    match Dict.get "Services" found with
    | Some data => services_of data
    | None => []
    end in
  let missing_items :=
    map Py.strip
        (filter (fun item => negb (Py.contains ":" item)) (iter (missing_info self))) in
  Py.join Py.nl
    (["Complete Service Provider Profile:" ++ Py.nl]
     +++ format_section found "Agency Level"
     +++ format_section found "Site Level"
     +++ match services with
        | [] => []
        | _ => ("=== Services/Programs ===" ++ Py.nl) :: format_services 1 services
        end
     +++ ["=== MISSING INFORMATION ===";
         match missing_items with
         | [] => "All mandatory information found"
         | _ => Py.join ", " missing_items
         end;
         EmptyString;
         "=== SOURCE URLS ===";
         source_urls self]).

Definition _format_custom_results (self : analyzer) (custom_query : string)
  : string :=
  Py.join Py.nl
    ([("Query Results for: " ++ custom_query ++ Py.nl)]
     +++ match Dict.get "Custom" (found_info self) with
        | Some data =>
            ("=== EXTRACTED INFORMATION ===" ++ Py.nl)
            :: map format_field (fields_of data) +++ [EmptyString]
        | None => []
        end
     +++ ["=== SOURCE URLS ==="; source_urls self]).

(** *** The crawl controller *)

(** [if custom_extraction:] holds for a non-empty string *)
Definition custom_mode (custom_extraction : option string) : option string :=
  match custom_extraction with
  | Some q => if Urllib.nonempty q then Some q else None
  | None => None
  end.

Definition with_found (self : analyzer) (found : info) : analyzer :=
  mkAnalyzer (visited_urls self) (base_url self) found (missing_info self)
             (failed_urls self) (all_internal_links self).

Definition with_missing (self : analyzer) (missing : PySet.t) : analyzer :=
  mkAnalyzer (visited_urls self) (base_url self) (found_info self) missing
             (failed_urls self) (all_internal_links self).

(** The text between the first [marker] and the next [stop], stripped:
    [analysis.split(marker)[1].split(stop)[0].strip()] *)
Definition slice (marker stop analysis : string) : string :=
  Py.strip (Py.first (Py.split stop (nth 1 (Py.split marker analysis) EmptyString))).

(** The custom branch of the update in [_analyze_content] *)
Definition update_custom (self : analyzer) (analysis : string)
  : analyzer * outcome unit :=
  if Py.contains "EXTRACTED_INFO:" analysis then
    let extracted := slice "EXTRACTED_INFO:" "NEXT_URL:" analysis in
    let self :=
      if Dict.mem "Custom" (found_info self) then self
      else with_found self (Dict.set "Custom" (Fields []) (found_info self)) in
    match _parse_custom_info extracted with
    | Raise msg => (self, Raise msg)
    | Return parsed =>
        match Dict.get "Custom" (found_info self) with
        | Some (Fields d) =>
            (with_found self
               (Dict.set "Custom" (Fields (Dict.update d parsed)) (found_info self)),
             Return tt)
        | _ => (self, Raise "'list' object has no attribute 'update'")
        end
    end
  else (self, Return tt).

(** The default branch of the update in [_analyze_content] *)
Definition update_default (self : analyzer) (analysis : string)
  : analyzer * outcome unit :=
  match (if Py.contains "NEW_INFO:" analysis
         then _update_found_info (slice "NEW_INFO:" "STILL_MISSING:" analysis)
                                 (found_info self)
         else Some (found_info self)) with
  | None => (self, Raise "not enough values to unpack (expected 2, got 1)")
  | Some found =>
      let self := with_found self found in
      if Py.contains "STILL_MISSING:" analysis then
        let missing := slice "STILL_MISSING:" "NEXT_URL:" analysis in
        (with_missing self
           (PySet.update [] (filter Urllib.nonempty
                                    (map Py.strip (Py.split Py.nl missing)))),
         Return tt)
      else (self, Return tt)
  end.

Definition custom_found (found : info) : Dict.t string :=
  match Dict.get "Custom" found with
  | Some data => fields_of data
  | None => []
  end.

Definition _analyze_content (self : analyzer) (scraped_data : scraped)
    (custom_extraction : option string) : analyzer * outcome string :=
  let analysis_prompt :=
    match custom_mode custom_extraction with
    | Some q =>
        CustomPrompt q (page_url scraped_data) (content scraped_data)
                     (custom_found (found_info self)) (internal_links scraped_data)
    | None =>
        DefaultPrompt (page_url scraped_data) (content scraped_data)
                      (found_info self) (iter (missing_info self))
                      (internal_links scraped_data)
    end in
  match llm_invoke analysis_prompt with
  | Raise msg => (self, Raise msg)
  | Return analysis =>
      let (self, r) :=
        match custom_mode custom_extraction with
        | Some _ => update_custom self analysis
        | None => update_default self analysis
        end in
      (self, _ <- r ;; Return analysis)
  end.

Definition skipped (self : analyzer) (url : string) : analyzer * result :=
  (self, mkResult (_format_final_results self) (Skipped url)).

(** The [except Exception as e] handler *)
Definition handler (self : analyzer) (url msg : string) : analyzer * result :=
  let self :=
    mkAnalyzer (visited_urls self) (base_url self) (found_info self)
               (missing_info self) (PySet.add url (failed_urls self))
               (all_internal_links self) in
  (self, mkResult (_format_final_results self) (Failed url msg)).

Definition base_of (self : analyzer) : string :=
  match base_url self with Some b => b | None => EmptyString end.

(** [if not self.base_url: ...]; [urlparse] may raise. *)
Definition set_base (self : analyzer) (url : string) : outcome analyzer :=
  if Urllib.nonempty (base_of self) then Return self
  else
    parsed <- urlparse url ;;
    Return (mkAnalyzer (visited_urls self)
                       (Some (scheme parsed ++ "://" ++ netloc parsed))
                       (found_info self) (missing_info self) (failed_urls self)
                       (all_internal_links self)).

(** [self.visited_urls.add(url)] *)
Definition mark_visited (self : analyzer) (url : string) : analyzer :=
  mkAnalyzer (PySet.add url (visited_urls self)) (base_url self) (found_info self)
             (missing_info self) (failed_urls self) (all_internal_links self).

(** [self.all_internal_links.update(...)] *)
Definition add_links (self : analyzer) (links : list string) : analyzer :=
  mkAnalyzer (visited_urls self) (base_url self) (found_info self)
             (missing_info self) (failed_urls self)
             (PySet.update (all_internal_links self) links).

(** [scraped_data['metadata']['internal_links'] = ...] *)
Definition with_links (scraped_data : scraped) (links : list string) : scraped :=
  mkScraped (content scraped_data) (title scraped_data) (page_url scraped_data) links.

(** The loop [for next_url in next_urls], [visit] being the recursive call
    at [depth - 1], whose result is dropped *)
Definition follow (visit : string -> analyzer -> analyzer * result)
    (next_urls : list string) (self : analyzer) : analyzer :=
  fold_left
    (fun self next_url =>
       if negb (Py.mem next_url (visited_urls self))
          && negb (Py.mem next_url (failed_urls self))
       then fst (visit next_url self)
       else self)
    next_urls self.

(** The report of the normal return *)
Definition report (self : analyzer) (custom_extraction : option string) : string :=
  match custom_mode custom_extraction with
  | Some q => _format_custom_results self q
  | None => _format_final_results self
  end.

(** [analyze_website] by recursion on the depth that is left: [O] is
    [depth <= 0], and the recursive calls are at [depth - 1]. *)
Fixpoint analyze_website_nat (depth : nat) (url : string)
    (custom_extraction : option string) (self : analyzer) : analyzer * result :=
  match depth with
  | O => skipped self url
  | S depth' =>
      if Py.mem url (visited_urls self) || Py.mem url (failed_urls self)
      then skipped self url
      else
        let self := mark_visited self url in
        match set_base self url with
        | Raise msg => handler self url msg
        | Return self =>
            match scrape_website url with
            | Raise msg => handler self url msg
            | Return scraped_data =>
                let self := add_links self (internal_links scraped_data) in
                let scraped_data :=
                  with_links scraped_data (iter (all_internal_links self)) in
                match _analyze_content self scraped_data custom_extraction with
                | (self, Raise msg) => handler self url msg
                | (self, Return analysis) =>
                    let next_urls :=
                      if Py.contains "NEXT_URL:" analysis
                      then _extract_next_urls (base_of self) (visited_urls self)
                                              analysis (internal_links scraped_data)
                      else [] in
                    let self :=
                      follow (fun next_url self =>
                                analyze_website_nat depth' next_url
                                                    custom_extraction self)
                             next_urls self in
                    (self,
                     mkResult (report self custom_extraction)
                              (Page (title scraped_data) (page_url scraped_data)
                                    (internal_links scraped_data)))
                end
            end
        end
  end.

(** [analyze_website(url, custom_extraction, depth)] *)
Definition analyze_website (url : string) (custom_extraction : option string)
    (depth : Z) (self : analyzer) : analyzer * result :=
  analyze_website_nat (Z.to_nat depth) url custom_extraction self.

End Analyzer.

(** ** The method that the class does not define *)

(** [self._parse_custom_info] at app.py:434.  The class [WebsiteAnalyzer]
    of src/app.py is complete, has no base class and defines no method of
    that name, so the attribute lookup raises [AttributeError]; the slice
    [extracted] is not read. *)
Definition _parse_custom_info (extracted : string) : outcome (Dict.t string) :=
  Raise "'WebsiteAnalyzer' object has no attribute '_parse_custom_info'".

(** ** The link extraction of the scraper *)

(** [s.startswith((p1, p2, ...))] *)
Definition starts_with_any (prefixes : list string) (s : string) : bool :=
  existsb (fun p => Py.startswith p s) prefixes.

(** [href and not href.startswith(('#', 'javascript:', 'mailto:', 'tel:'))]
    of [scrape_website] (src/scraper.py) *)
Definition followable (href : string) : bool :=
  Urllib.nonempty href
  && negb (starts_with_any ["#"; "javascript:"; "mailto:"; "tel:"] href).

Section Scraper.

Variable urlparse : string -> outcome ParseResult.
Variable urljoin : string -> string -> outcome string.

(** The three ways in which [scrape_website] completes an href *)
Definition clean_href (url href : string) : outcome string :=
  if Py.startswith "//" href then Return ("https:" ++ href)
  else if Py.startswith "/" href then
    parsed_base <- urlparse url ;;
    Return (scheme parsed_base ++ "://" ++ netloc parsed_base ++ href)
  else if negb (starts_with_any ["http://"; "https://"] href) then urljoin url href
  else Return href.

(** The body of [for a in soup.find_all('a', href=True)], for the href of
    the anchor *)
Definition add_link (url : string) (links : list string) (href : string)
  : outcome (list string) :=
  if followable href then
    href <- clean_href url href ;;
    parsed_href <- urlparse href ;;
    parsed_url <- urlparse url ;;
    if String.eqb (netloc parsed_href) (netloc parsed_url)
    then Return (links ++ [href])%list
    else Return links
  else Return links.

Fixpoint collect_links (url : string) (links hrefs : list string)
  : outcome (list string) :=
  match hrefs with
  | [] => Return links
  | href :: hrefs' =>
      links' <- add_link url links href ;;
      collect_links url links' hrefs'
  end.

(** The list [links] that [scrape_website] builds from the hrefs of the
    anchors of the page, in the order of the document *)
Definition scrape_links (url : string) (hrefs : list string) : outcome (list string) :=
  collect_links url [] hrefs.

End Scraper.

(** ** Concrete collaborators for the runs *)

Module Run.

Definition urlparse (url : string) : outcome ParseResult :=
  Return (Urllib.urlparse url).
Definition urljoin (base url : string) : outcome string :=
  Return (Urllib.urljoin base url).
Definition parse_custom (extracted : string) : outcome (Dict.t string) :=
  _parse_custom_info extracted.

(** A site of two pages: the home page, whose analysis proposes [/b], and
    the page [/b], which cannot be fetched. *)
Definition home : string := "http://example.com".
Definition page_b : string := "http://example.com/b".

Definition scrape (url : string) : outcome scraped :=
  if String.eqb url home then
    Return (mkScraped "Helping Hands" "Home" url [page_b])
  else Raise "404 Client Error".

Definition home_analysis : string :=
  lines ["NEW_INFO:"; "Agency Level:"; "Agency Name: Helping Hands";
         "STILL_MISSING:"; "Legal Status"; "NEXT_URL:"; "/b"].

Definition llm (p : prompt) : outcome string := Return home_analysis.

(** What the scraper returns for the home page, the analyzer once the base
    URL is set on the first visit, and the analyzer after the analysis of
    the home page *)
Definition home_data : scraped := mkScraped "Helping Hands" "Home" home [page_b].
Definition based : analyzer :=
  mkAnalyzer [home] (Some "http://example.com") [] [] [] [].
Definition after_home : analyzer :=
  mkAnalyzer [home] (Some "http://example.com")
             [("Agency Level", Fields [("Agency Name", "Helping Hands")])]
             ["Legal Status"] [] [page_b].

(** An analysis of the home page with a service line that has no colon *)
Definition broken_analysis : string :=
  lines ["NEW_INFO:"; "Agency Level:"; "Agency Name: Helping Hands";
         "Service/Program Level:"; "- Name: Food Bank"; "- open daily";
         "STILL_MISSING:"; "Legal Status"; "NEXT_URL:"; "none"].

Definition llm_broken (p : prompt) : outcome string := Return broken_analysis.

(** An analysis of the home page with a service field that is not one of
    [service_keys], and a response in the format of the custom mode *)
Definition website_analysis : string :=
  lines ["NEW_INFO:"; "Service/Program Level:"; "- Name: Food Bank";
         "- Website: foodbank.org"; "STILL_MISSING:"; "Legal Status";
         "NEXT_URL:"; "/b"].

Definition llm_website (p : prompt) : outcome string := Return website_analysis.

Definition custom_analysis : string :=
  lines ["EXTRACTED_INFO:"; "Phone: 555-1111"; "NEXT_URL:"; "none"].

Definition llm_custom (p : prompt) : outcome string := Return custom_analysis.

End Run.

(** ** Notions used in the statements and in the proofs *)

(** A property of every section of a record *)
Definition all_sections (Q : string -> section_data -> Prop) (r : info) : Prop :=
  forall section data, In (section, data) r -> Q section data.

(** The record after the texts of a sequence of pages were merged, one
    after the other, into the empty record *)
Definition accumulate (texts : list string) : info :=
  fold_left (fun found new_info => found_after new_info found) texts [].

Definition no_field_key (section : string) (data : section_data) : Prop :=
  match data with
  | Fields d => forall key value, In (key, value) d -> Py.startswith "Field" key = false
  | ServiceList _ => True
  end.

Definition food_bank_phone : string :=
  lines ["Service/Program Level:"; "- Name: Food Bank"; "- Phone Numbers: 555-1111"].
Definition food_bank_description : string :=
  lines ["Service/Program Level:"; "- Name: Food Bank";
         "- Description: Provides groceries"].
Definition shelter_description : string :=
  lines ["Service/Program Level:"; "- Name: Shelter";
         "- Description: Beds for the night"].

(** The value that a list of bindings, written in order, leaves at [k],
    starting from [acc] *)
Definition overwrite (k : string) (acc : option string) (kv : string * string)
  : option string :=
  if String.eqb k (fst kv) then Some (snd kv) else acc.

Definition name (d : Dict.t string) : option string := Dict.get "Name" d.
Definition names (l : list (Dict.t string)) : list (option string) := map name l.

(** The first entry of the list whose name is [X] *)
Fixpoint find_service (X : option string) (l : list (Dict.t string))
  : option (Dict.t string) :=
  match l with
  | [] => None
  | e :: l' => if option_eqb (name e) X then Some e else find_service X l'
  end.

(** What [merge_service] leaves under the name [X] *)
Definition absorb (X : option string) (o : option (Dict.t string))
    (n : Dict.t string) : option (Dict.t string) :=
  if option_eqb (name n) X
  then Some (match o with Some e => Dict.update e n | None => n end)
  else o.

Definition all_nodup (l : list (Dict.t string)) : Prop :=
  forall d, In d l -> NoDup (Dict.keys d).

(** The bindings that the entries of [l] named [X] write, in order *)
Definition bindings_for (X : option string) (l : list (Dict.t string))
  : Dict.t string :=
  flat_map (fun n => if option_eqb (name n) X then n else []) l.

Definition or_empty (o : option (Dict.t string)) : Dict.t string :=
  match o with Some e => e | None => [] end.

(** The shape of a section fits its name, and no dictionary repeats a key. *)
Definition well_formed (section : string) (data : section_data) : Prop :=
  match data with
  | Fields d => section <> "Services" /\ NoDup (Dict.keys d)
  | ServiceList l => section = "Services" /\ all_nodup l
  end.

(** What the first merge into the empty record makes of a parsed section *)
Definition merged_alone (sd : string * section_data) : string * section_data :=
  (fst sd,
   match snd sd with
   | Fields d => Fields d
   | ServiceList l => ServiceList (merge_services [] l)
   end).

Definition slash : ascii := "/"%char.

(** [replace('//', '/')], read off the text two characters at a time *)
Fixpoint collapse (s : string) : string :=
  match s with
  | EmptyString => EmptyString
  | String c s' =>
      match s' with
      | String c' s'' =>
          if Ascii.eqb c slash && Ascii.eqb c' slash
          then String slash (collapse s'')
          else String c (collapse s')
      | EmptyString => String c EmptyString
      end
  end.

Definition head (s : string) : option ascii :=
  match s with
  | EmptyString => None
  | String c _ => Some c
  end.

Definition head_is_slash (s : string) : bool :=
  match s with
  | String c _ => Ascii.eqb c slash
  | EmptyString => false
  end.

Fixpoint last_char (s : string) : option ascii :=
  match s with
  | EmptyString => None
  | String c EmptyString => Some c
  | String _ s' => last_char s'
  end.

(** Two analyzers that differ in the record and the missing set only *)
Definition same_sets (self self' : analyzer) : Prop :=
  visited_urls self' = visited_urls self
  /\ failed_urls self' = failed_urls self
  /\ base_url self' = base_url self
  /\ all_internal_links self' = all_internal_links self.

(** What the rendering of the record shows: every field of the field maps
    and, of a service entry, the fields of the canonical list *)
Definition shows_record (custom_extraction : option string) (found : info)
    (text : string) : Prop :=
  match custom_mode custom_extraction with
  | None =>
      (forall section d key value,
          section = "Agency Level" \/ section = "Site Level" ->
          Dict.get section found = Some (Fields d) -> In (key, value) d ->
          Py.contains (key ++ ": " ++ value) text = true)
      /\ (forall l service key value,
             Dict.get "Services" found = Some (ServiceList l) ->
             In service l -> In key service_keys ->
             Dict.get key service = Some value ->
             Py.contains ("  " ++ key ++ ": " ++ value) text = true)
  | Some _ =>
      forall d key value,
        Dict.get "Custom" found = Some (Fields d) -> In (key, value) d ->
        Py.contains (key ++ ": " ++ value) text = true
  end.

Definition services_filtered (section : string) (data : section_data) : Prop :=
  match data with
  | ServiceList l =>
      forall service key value,
        In service l -> In (key, value) service -> keeps value = true
  | Fields _ => True
  end.

(** No line of the text names a section. *)
Definition headerless (new_info : string) : bool :=
  forallb (fun raw =>
             match find_header sections (Py.upper (Py.strip raw)) with
             | None => true
             | Some _ => false
             end)
          (Py.split Py.nl new_info).

(** The values of the fields other than the hour fields have no colon. *)
Definition colon_free (section : string) (data : section_data) : Prop :=
  match data with
  | Fields d =>
      forall key value,
        In (key, value) d -> Py.contains "hour" (Py.lower key) = false ->
        Py.contains ":" value = false
  | ServiceList _ => True
  end.

(** A field of a field map, with a value at least as long as [value] *)
Definition holds_field (section key value : string) (found : info) : Prop :=
  exists d value',
    Dict.get section found = Some (Fields d)
    /\ Dict.get key d = Some value'
    /\ (String.length value <= String.length value')%nat.

(** The service list of the record, whose names begin with [ns] *)
Definition services_begin_with (ns : list (option string)) (found : info) : Prop :=
  exists l extra,
    Dict.get "Services" found = Some (ServiceList l)
    /\ names l = (ns ++ extra)%list.

(** A link that parses with the host of the page [url] *)
Definition on_site (urlparse : string -> outcome ParseResult) (url link : string)
  : Prop :=
  exists parsed_link parsed_url,
    urlparse link = Return parsed_link /\ urlparse url = Return parsed_url
    /\ netloc parsed_link = netloc parsed_url.

(** The three sets of [self0] are within those of [self]. *)
Definition grown_from (self0 self : analyzer) : Prop :=
  incl (visited_urls self0) (visited_urls self)
  /\ incl (failed_urls self0) (failed_urls self)
  /\ incl (all_internal_links self0) (all_internal_links self).

(** * Properties *)

(** ** Facts about dictionaries *)

Section DictFacts.
Context {V : Type}.
Implicit Types (d e : Dict.t V) (k : string) (v : V).

Lemma get_set d k k' v :
  Dict.get k (Dict.set k' v d) = if String.eqb k k' then Some v else Dict.get k d.
Proof.
  induction d as [|[k0 v0] d IH]; simpl.
  - reflexivity.
  - destruct (String.eqb k' k0) eqn:E0; simpl.
    + destruct (String.eqb k k') eqn:E1; [reflexivity|].
      apply String.eqb_eq in E0; subst k0. now rewrite E1.
    + destruct (String.eqb k k0) eqn:E2.
      * apply String.eqb_eq in E2; subst k0.
        rewrite String.eqb_sym in E0. now rewrite E0.
      * exact IH.
Qed.

Lemma get_set_same d k v : Dict.get k (Dict.set k v d) = Some v.
Proof. rewrite get_set. now rewrite String.eqb_refl. Qed.

Lemma mem_set d k k' v :
  Dict.mem k (Dict.set k' v d) = String.eqb k k' || Dict.mem k d.
Proof.
  unfold Dict.mem. rewrite get_set. now destruct (String.eqb k k').
Qed.

Lemma get_In d k v : Dict.get k d = Some v -> In (k, v) d.
Proof.
  induction d as [|[k0 v0] d IH]; simpl; [discriminate|].
  destruct (String.eqb k k0) eqn:E.
  - apply String.eqb_eq in E. intros [= ->]. subst. now left.
  - intros H. right. auto.
Qed.

Lemma get_None_keys d k : Dict.get k d = None -> ~ In k (Dict.keys d).
Proof.
  induction d as [|[k0 v0] d IH]; simpl; [tauto|].
  destruct (String.eqb k k0) eqn:E; [discriminate|].
  apply String.eqb_neq in E. intros H [H1|H1]; [congruence|]. now apply IH.
Qed.

Lemma keys_get d k : In k (Dict.keys d) -> exists v, Dict.get k d = Some v.
Proof.
  induction d as [|[k0 v0] d IH]; simpl; [tauto|].
  destruct (String.eqb k k0) eqn:E; [eauto|].
  apply String.eqb_neq in E. intros [H|H]; [congruence|auto].
Qed.

Lemma In_get d k v : NoDup (Dict.keys d) -> In (k, v) d -> Dict.get k d = Some v.
Proof.
  induction d as [|[k0 v0] d IH]; simpl; [tauto|].
  intros ND [H|H].
  - injection H as -> ->. now rewrite String.eqb_refl.
  - inversion ND as [|? ? Hn ND']; subst.
    destruct (String.eqb k k0) eqn:E.
    + apply String.eqb_eq in E; subst k0. exfalso. apply Hn.
      change k with (fst (k, v)). now apply in_map.
    + auto.
Qed.

Lemma set_In d k v kv : In kv (Dict.set k v d) -> kv = (k, v) \/ In kv d.
Proof.
  induction d as [|[k0 v0] d IH]; simpl.
  - intros [H|[]]; auto.
  - destruct (String.eqb k k0); simpl; intros [H|H]; auto.
    destruct (IH H); auto.
Qed.

Lemma keys_set_mem d k v :
  Dict.mem k d = true -> Dict.keys (Dict.set k v d) = Dict.keys d.
Proof.
  unfold Dict.mem.
  induction d as [|[k0 v0] d IH]; simpl; [discriminate|].
  destruct (String.eqb k k0) eqn:E; simpl.
  - apply String.eqb_eq in E. now subst.
  - intros H. f_equal. auto.
Qed.

Lemma set_not_mem d k v :
  Dict.mem k d = false -> Dict.set k v d = (d ++ [(k, v)])%list.
Proof.
  unfold Dict.mem.
  induction d as [|[k0 v0] d IH]; simpl; [reflexivity|].
  destruct (String.eqb k k0) eqn:E; [discriminate|].
  intros H. f_equal. auto.
Qed.

Lemma set_same d k v : Dict.get k d = Some v -> Dict.set k v d = d.
Proof.
  induction d as [|[k0 v0] d IH]; simpl; [discriminate|].
  destruct (String.eqb k k0) eqn:E.
  - apply String.eqb_eq in E. intros [= ->]. now subst.
  - intros H. f_equal. auto.
Qed.

Lemma mem_keys d k : Dict.mem k d = false -> ~ In k (Dict.keys d).
Proof.
  unfold Dict.mem. destruct (Dict.get k d) eqn:E; [discriminate|].
  intros _. now apply get_None_keys.
Qed.

Lemma NoDup_set d k v : NoDup (Dict.keys d) -> NoDup (Dict.keys (Dict.set k v d)).
Proof.
  intros ND. destruct (Dict.mem k d) eqn:E.
  - now rewrite keys_set_mem.
  - rewrite set_not_mem by assumption. unfold Dict.keys. rewrite map_app. simpl.
    apply NoDup_app; [assumption|repeat constructor; simpl; tauto|].
    intros x Hx [H|[]]. subst x. now apply (mem_keys d k).
Qed.

(** Two dictionaries with the same keys in the same order, none repeated,
    and the same value at every key are equal. *)
Lemma dict_ext d e :
  Dict.keys d = Dict.keys e -> NoDup (Dict.keys d) ->
  (forall k, Dict.get k d = Dict.get k e) -> d = e.
Proof.
  revert e. induction d as [|[k0 v0] d IH]; intros [|[k1 v1] e]; simpl;
    try discriminate; [reflexivity|].
  intros [= -> Hk] ND Hg. inversion ND as [|? ? Hn ND']; subst.
  pose proof (Hg k1) as H1. rewrite String.eqb_refl in H1. injection H1 as ->.
  f_equal. apply IH; auto.
  intros k. specialize (Hg k). destruct (String.eqb k k1) eqn:E; [|exact Hg].
  apply String.eqb_eq in E; subst k.
  destruct (Dict.get k1 d) eqn:G1.
  - exfalso. apply Hn. apply get_In in G1.
    change k1 with (fst (k1, v)). now apply in_map.
  - destruct (Dict.get k1 e) eqn:G2; [|reflexivity].
    exfalso. apply Hn. rewrite Hk. apply get_In in G2.
    change k1 with (fst (k1, v)). now apply in_map.
Qed.

End DictFacts.

(** ** The skip guard of the crawl *)

(** C6.  Whatever the collaborators, the URL and the state of the
    analyzer: a call of [analyze_website] with [depth <= 0], or with a URL
    that is in the visited set or in the failed set, returns at once with
    the status [skipped] and leaves the whole analyzer as it was: visited
    set, failed set, base URL, link superset, accumulated record and missing
    set. *)
Theorem skip_leaves_state
    (urlparse : string -> outcome ParseResult)
    (urljoin : string -> string -> outcome string)
    (iter : list string -> list string)
    (scrape_website : string -> outcome scraped)
    (llm_invoke : prompt -> outcome string)
    (parse_custom : string -> outcome (Dict.t string))
    (url : string) (custom_extraction : option string) (depth : Z)
    (self : analyzer) :
  (depth <= 0)%Z \/ Py.mem url (visited_urls self) = true
                 \/ Py.mem url (failed_urls self) = true ->
  let (self', r) :=
    analyze_website urlparse urljoin iter scrape_website llm_invoke parse_custom
                    url custom_extraction depth self in
  self' = self /\ meta r = Skipped url
  /\ analysis r = _format_final_results iter self.
Proof.
  intros H. unfold analyze_website.
  destruct (Z.to_nat depth) as [|n] eqn:En; simpl.
  - auto.
  - destruct H as [H|H]; [lia|].
    assert (G : Py.mem url (visited_urls self) || Py.mem url (failed_urls self)
                = true) by (apply orb_true_iff; tauto).
    rewrite G. simpl. auto.
Qed.

Lemma skip_leaves_state_witness :
  let (self', r) :=
    analyze_website Run.urlparse Run.urljoin (fun l => l) Run.scrape Run.llm
                    Run.parse_custom Run.home None 0 init in
  self' = init /\ meta r = Skipped Run.home
  /\ analysis r = _format_final_results (fun l => l) init.
Proof.
  apply (skip_leaves_state Run.urlparse Run.urljoin (fun l => l) Run.scrape
           Run.llm Run.parse_custom Run.home None 0%Z init).
  left. lia.
Defined.

(** ** Invariants of the parsing loop *)

(** Closes a case in which the step returns the state it was given. *)
Ltac same_state :=
  let E := fresh "E" in intros E; injection E as E; subst; simpl; auto.

(** Reduces the projections and the option plumbing, and nothing else. *)
Ltac step :=
  cbn [option_map temp_info current_section current_service andb negb fst snd].

Lemma all_sections_nil Q : all_sections Q [].
Proof. intros ? ? []. Qed.

Lemma all_sections_set Q (r : info) section data :
  all_sections Q r -> Q section data -> all_sections Q (Dict.set section data r).
Proof.
  intros Hr Hq s d Hin. apply set_In in Hin.
  destruct Hin as [[= -> ->]|Hin]; auto.
Qed.

Lemma all_sections_get Q (r : info) section data :
  all_sections Q r -> Dict.get section r = Some data -> Q section data.
Proof. intros Hr Hg. apply Hr. now apply get_In. Qed.

Section ParseInvariant.

(** A property of [temp_info] that each of the four writes of the loop
    keeps *)
Variable P : info -> Prop.
Hypothesis P_header :
  forall temp section, P temp -> P (Dict.set section (empty_section section) temp).
Hypothesis P_append :
  forall temp l,
    P temp -> Dict.get "Services" temp = Some (ServiceList l) ->
    P (Dict.set "Services" (ServiceList (l ++ [[]])) temp).
Hypothesis P_service_field :
  forall temp l l' key value,
    P temp -> Dict.get "Services" temp = Some (ServiceList l) ->
    keeps value = true -> set_last key value l = Some l' ->
    P (Dict.set "Services" (ServiceList l') temp).
Hypothesis P_field :
  forall temp section d key value,
    P temp -> Dict.get section temp = Some (Fields d) ->
    section <> "Services" ->
    Py.startswith "Field" key = false -> keeps value = true ->
    P (Dict.set section (Fields (Dict.set key (stored_value key value) d)) temp).

Lemma append_service_ind temp temp' :
  P temp -> append_service temp = Some temp' -> P temp'.
Proof.
  unfold append_service. intros H.
  destruct (Dict.get "Services" temp) as [[d|l]|] eqn:G; try discriminate.
  intros [= <-]. now apply P_append.
Qed.

Lemma set_service_field_ind key value temp temp' :
  P temp -> keeps value = true ->
  set_service_field key value temp = Some temp' -> P temp'.
Proof.
  unfold set_service_field. intros H K.
  destruct (Dict.get "Services" temp) as [[d|l]|] eqn:G; try discriminate.
  destruct (set_last key value l) as [l'|] eqn:L; simpl; [|discriminate].
  intros [= <-]. eapply P_service_field; eauto.
Qed.

Lemma set_field_ind section key value temp temp' :
  P temp -> section <> "Services" ->
  Py.startswith "Field" key = false -> keeps value = true ->
  set_field section key (stored_value key value) temp = Some temp' -> P temp'.
Proof.
  unfold set_field. intros H NS F K.
  destruct (Dict.get section temp) as [[d|l]|] eqn:G; try discriminate.
  intros [= <-]. now apply P_field.
Qed.

Lemma in_services_false section :
  in_services (Some section) = false -> section <> "Services".
Proof. simpl. intros H. now apply String.eqb_neq. Qed.

Lemma parse_line_ind st raw st' :
  P (temp_info st) -> parse_line st raw = Some st' -> P (temp_info st').
Proof.
  intros H. unfold parse_line. cbv zeta.
  destruct (String.eqb (Py.strip raw) EmptyString); [same_state|].
  set (line := Py.strip raw).
  set (st1 := match find_header sections (Py.upper line) with
              | Some hv => _ | None => st end).
  assert (H1 : P (temp_info st1)).
  { subst st1. destruct (find_header sections (Py.upper line)) as [hv|]; simpl; auto.
    destruct (Dict.mem hv (temp_info st)); auto. }
  clearbody st1. clear H.
  destruct (in_services (current_section st1)) eqn:IS.
  - destruct (Py.startswith "- Name:" line).
    + destruct (append_service (temp_info st1)) as [t|] eqn:A; step; [|discriminate].
      apply append_service_ind in A; auto.
      destruct (Py.startswith "- " line && true); [|same_state].
      destruct (Py.split1 ":" (Py.drop 2 line)) as [[key value]|]; [|discriminate].
      destruct (keeps (Py.strip value)) eqn:K; [|same_state].
      destruct (set_service_field _ _ t) as [t'|] eqn:S; step; [|discriminate].
      intros [= <-]; step; eapply set_service_field_ind; eauto.
    + destruct (Py.startswith "- " line && current_service st1);
        [|same_state].
      destruct (Py.split1 ":" (Py.drop 2 line)) as [[key value]|]; [|discriminate].
      destruct (keeps (Py.strip value)) eqn:K; [|same_state].
      destruct (set_service_field _ _ (temp_info st1)) as [t'|] eqn:S; step;
        [|discriminate].
      intros [= <-]; step; eapply set_service_field_ind; eauto.
  - destruct (Py.contains ":" line && negb (Py.startswith "http" line));
      [|same_state].
    destruct (current_section st1) as [section|] eqn:CS; [|same_state].
    destruct (Py.split1 ":" line) as [[key value]|]; [|discriminate].
    destruct (negb (Py.startswith "Field" (Py.strip key))) eqn:F; step;
      [|same_state].
    destruct (keeps (Py.strip value)) eqn:K; [|same_state].
    destruct (set_field _ _ _ (temp_info st1)) as [t'|] eqn:S; step; [|discriminate].
    intros [= <-]; step; eapply set_field_ind; eauto.
    + now apply in_services_false.
    + now apply negb_true_iff.
Qed.

Lemma parse_lines_ind lines st st' :
  P (temp_info st) -> parse_lines st lines = Some st' -> P (temp_info st').
Proof.
  revert st. induction lines as [|l ls IH]; simpl; intros st H.
  - same_state.
  - destruct (parse_line st l) as [st1|] eqn:E; [|discriminate].
    apply IH. eapply parse_line_ind; eauto.
Qed.

Lemma parse_new_info_ind new_info temp :
  P [] -> parse_new_info new_info = Some temp -> P temp.
Proof.
  unfold parse_new_info. intros H0.
  destruct (parse_lines parse_init _) as [st|] eqn:E; simpl; [|discriminate].
  intros [= <-]. eapply parse_lines_ind; [|exact E]. exact H0.
Qed.

End ParseInvariant.

(** The invariants that speak of one section at a time *)
Section SectionInvariant.

Variable Q : string -> section_data -> Prop.
Hypothesis Q_empty : forall section, Q section (empty_section section).
Hypothesis Q_append :
  forall l, Q "Services" (ServiceList l) -> Q "Services" (ServiceList (l ++ [[]])).
Hypothesis Q_service_field :
  forall l l' key value,
    Q "Services" (ServiceList l) -> keeps value = true ->
    set_last key value l = Some l' -> Q "Services" (ServiceList l').
Hypothesis Q_field :
  forall section d key value,
    Q section (Fields d) -> section <> "Services" ->
    Py.startswith "Field" key = false -> keeps value = true ->
    Q section (Fields (Dict.set key (stored_value key value) d)).

Lemma parse_new_info_inv new_info temp :
  parse_new_info new_info = Some temp -> all_sections Q temp.
Proof.
  apply (parse_new_info_ind (all_sections Q)).
  - intros t s H. apply all_sections_set; auto.
  - intros t l H G. apply all_sections_set; auto.
    apply Q_append. eapply all_sections_get; eauto.
  - intros t l l' key value H G K L. apply all_sections_set; auto.
    eapply Q_service_field; eauto. eapply all_sections_get; eauto.
  - intros t s d key value H G NS F K. apply all_sections_set; auto.
    apply Q_field; auto. eapply all_sections_get; eauto.
  - apply all_sections_nil.
Qed.

End SectionInvariant.

(** The sections of [temp_info] have distinct names. *)
Lemma parse_new_info_keys new_info temp :
  parse_new_info new_info = Some temp -> NoDup (Dict.keys temp).
Proof.
  apply (parse_new_info_ind (fun t => NoDup (Dict.keys t)));
    intros; try apply NoDup_set; auto. constructor.
Qed.

(** ** Invariants of the merge *)

Section MergeInvariant.

Variable Q : string -> section_data -> Prop.
Hypothesis Q_empty : forall section, Q section (empty_section section).
Hypothesis Q_services :
  forall existing l,
    Q "Services" (ServiceList existing) -> Q "Services" (ServiceList l) ->
    Q "Services" (ServiceList (merge_services existing l)).
Hypothesis Q_fields :
  forall section existing d,
    Q section (Fields existing) -> Q section (Fields d) ->
    Q section (Fields (merge_fields existing d)).

Lemma merge_section_inv found section data found' :
  all_sections Q found -> Q section data ->
  merge_section found (section, data) = Some found' -> all_sections Q found'.
Proof.
  intros H Hd. unfold merge_section.
  set (found1 := if Dict.mem section found then found else _).
  assert (H1 : all_sections Q found1).
  { subst found1. destruct (Dict.mem section found); auto.
    apply all_sections_set; auto. }
  clearbody found1.
  destruct (String.eqb section "Services") eqn:E.
  - apply String.eqb_eq in E. subst section.
    destruct (Dict.get "Services" found1) as [[d|l]|] eqn:G;
      destruct data as [d'|l']; try discriminate.
    intros [= <-]. apply all_sections_set; auto.
    apply Q_services; auto. eapply all_sections_get; eauto.
  - destruct (Dict.get section found1) as [[d|l]|] eqn:G;
      destruct data as [d'|l']; try discriminate.
    intros [= <-]. apply all_sections_set; auto.
    apply Q_fields; auto. eapply all_sections_get; eauto.
Qed.

Lemma merge_info_inv found temp found' :
  all_sections Q found -> all_sections Q temp ->
  merge_info found temp = Some found' -> all_sections Q found'.
Proof.
  revert found. induction temp as [|[section data] temp IH]; cbn [merge_info];
    intros found H Ht.
  - same_state.
  - destruct (merge_section found (section, data)) as [found1|] eqn:M;
      [|discriminate].
    intros M'. eapply IH; [| |exact M'].
    + eapply merge_section_inv; [exact H| |exact M].
      apply (Ht section data). now left.
    + intros s d Hin. apply (Ht s d). now right.
Qed.

End MergeInvariant.

(** A property that the parser establishes and the merge keeps holds of
    the record after any sequence of merges. *)
Lemma accumulate_inv (Q : string -> section_data -> Prop) :
  (forall new_info temp, parse_new_info new_info = Some temp -> all_sections Q temp) ->
  (forall found temp found',
      all_sections Q found -> all_sections Q temp ->
      merge_info found temp = Some found' -> all_sections Q found') ->
  forall texts, all_sections Q (accumulate texts).
Proof.
  intros HP HM texts. unfold accumulate.
  assert (G : forall found, all_sections Q found ->
                all_sections Q (fold_left (fun f t => found_after t f) texts found)).
  { induction texts as [|t ts IH]; simpl; intros found H; [assumption|].
    apply IH. unfold found_after, _update_found_info.
    destruct (parse_new_info t) as [temp|] eqn:P; [|assumption].
    destruct (merge_info found temp) as [found'|] eqn:M; [|assumption].
    exact (HM _ _ _ H (HP _ _ P) M). }
  apply G, all_sections_nil.
Qed.

Lemma merge_fields_In existing d kv :
  In kv (merge_fields existing d) -> In kv existing \/ In kv d.
Proof.
  unfold merge_fields. revert existing.
  induction d as [|[k v] d IH]; simpl; intros existing H; [now left|].
  apply IH in H. destruct H as [H|H]; [|now right; right].
  assert (G : In kv (Dict.set k v existing) -> In kv existing \/ (k, v) = kv).
  { intros G. apply set_In in G. destruct G; auto. }
  destruct (Dict.get k existing) as [old|]; [|destruct (G H); auto].
  destruct (String.length old <? String.length v)%nat; [destruct (G H)|]; auto.
Qed.

(** ** The filter on the keys that begin with [Field] *)

(** C10.  After any sequence of merges of [NEW_INFO:] slices into the empty
    record, no field map of the record (the sections other than
    [Services]) has a key that begins with [Field]: such a line is
    discarded though its value is neither empty nor a sentinel, as for
    [Field Office: Downtown] under [Agency Level].  The same line under the
    service section is kept as a field of the service entry. *)
Theorem field_keys_discarded :
  (forall texts section d key value,
      Dict.get section (accumulate texts) = Some (Fields d) ->
      In (key, value) d -> Py.startswith "Field" key = false)
  /\ keeps "Downtown" = true
  /\ accumulate [lines ["Agency Level:"; "Field Office: Downtown"; "Phone: 555-1111"]]
     = [("Agency Level", Fields [("Phone", "555-1111")])]
  /\ accumulate [lines ["Service/Program Level:"; "- Name: Food Bank";
                        "- Field Office: Downtown"]]
     = [("Services", ServiceList [[("Name", "Food Bank");
                                   ("Field Office", "Downtown")]])].
Proof.
  split; [|repeat split; reflexivity].
  intros texts section d key value G Hin.
  assert (A : all_sections no_field_key (accumulate texts)).
  { apply accumulate_inv.
    - intros new_info temp. apply parse_new_info_inv; simpl; auto.
      + intros s. unfold empty_section. destruct (String.eqb s "Services"); simpl; tauto.
      + intros s d0 k v H _ F _ k' v' Hin'. apply set_In in Hin'.
        destruct Hin' as [[= -> ->]|Hin']; eauto.
    - apply merge_info_inv; simpl; auto.
      + intros s. unfold empty_section. destruct (String.eqb s "Services"); simpl; tauto.
      + intros s e d0 He Hd k v Hkv. apply merge_fields_In in Hkv.
        destruct Hkv; eauto. }
  apply get_In in G. exact (A _ _ G key value Hin).
Qed.

Lemma field_keys_discarded_witness :
  Py.startswith "Field" "Phone" = false.
Proof.
  apply (proj1 field_keys_discarded
           [lines ["Agency Level:"; "Field Office: Downtown"; "Phone: 555-1111"]]
           "Agency Level" [("Phone", "555-1111")] "Phone" "555-1111").
  - reflexivity.
  - simpl. left. reflexivity.
Defined.

(** ** The merge of the service entries *)

Lemma get_update (e new : Dict.t string) k :
  NoDup (Dict.keys new) ->
  Dict.get k (Dict.update e new)
  = match Dict.get k new with Some v => Some v | None => Dict.get k e end.
Proof.
  unfold Dict.update. revert e.
  induction new as [|[k0 v0] new IH]; simpl; intros e ND; [reflexivity|].
  inversion ND as [|? ? Hn ND']; subst.
  rewrite IH by assumption. rewrite get_set.
  destruct (String.eqb k k0) eqn:E; [|reflexivity].
  apply String.eqb_eq in E; subst k0.
  destruct (Dict.get k new) eqn:G; [|reflexivity].
  exfalso. apply Hn. apply get_In in G.
  change k with (fst (k, s)). now apply in_map.
Qed.

Lemma merge_service_match new before e after :
  (forall x, In x before ->
             option_eqb (Dict.get "Name" x) (Dict.get "Name" new) = false) ->
  option_eqb (Dict.get "Name" e) (Dict.get "Name" new) = true ->
  merge_service new (before ++ e :: after) = (before ++ Dict.update e new :: after)%list.
Proof.
  intros Hb He. induction before as [|x before IH]; simpl.
  - now rewrite He.
  - rewrite (Hb x) by now left. f_equal. apply IH.
    intros y Hy. apply Hb. now right.
Qed.

Lemma merge_service_fresh new existing :
  (forall x, In x existing ->
             option_eqb (Dict.get "Name" x) (Dict.get "Name" new) = false) ->
  merge_service new existing = (existing ++ [new])%list.
Proof.
  intros Hb. induction existing as [|x existing IH]; simpl; [reflexivity|].
  rewrite (Hb x) by now left. f_equal. apply IH.
  intros y Hy. apply Hb. now right.
Qed.

(** ** The sentinel filter *)

(** C3, at the input on which the code departs from it.  Outside
    [Services] the filter reads the whole value and the cut at the first
    colon comes after it: the line [Eligibility: not specified: see the
    website] passes the filter and stores the sentinel [not specified]. *)
Theorem sentinel_stored_after_cut :
  keeps "not specified: see the website" = true
  /\ is_sentinel "not specified" = true
  /\ accumulate [lines ["Agency Level:";
                        "Eligibility: not specified: see the website"]]
     = [("Agency Level", Fields [("Eligibility", "not specified")])].
Proof. repeat split; reflexivity. Qed.

(** ** Merging the same bindings twice *)

Lemma get_update_fold (bs : Dict.t string) (e : Dict.t string) k :
  Dict.get k (Dict.update e bs) = fold_left (overwrite k) bs (Dict.get k e).
Proof.
  unfold Dict.update. revert e.
  induction bs as [|[k0 v0] bs IH]; simpl; intros e; [reflexivity|].
  rewrite IH, get_set. reflexivity.
Qed.

Lemma overwrite_twice (bs : Dict.t string) k acc :
  fold_left (overwrite k) bs (fold_left (overwrite k) bs acc)
  = fold_left (overwrite k) bs acc.
Proof.
  assert (G : forall acc, fold_left (overwrite k) bs acc
                          = match fold_left (overwrite k) bs None with
                            | Some v => Some v
                            | None => acc
                            end).
  { induction bs as [|[k0 v0] bs IH]; simpl; intros a; [reflexivity|].
    rewrite (IH (overwrite k a (k0, v0))), (IH (overwrite k None (k0, v0))).
    destruct (fold_left (overwrite k) bs None); [reflexivity|].
    unfold overwrite. simpl. now destruct (String.eqb k k0). }
  rewrite (G (fold_left (overwrite k) bs acc)), (G acc).
  now destruct (fold_left (overwrite k) bs None).
Qed.

Lemma NoDup_update (e bs : Dict.t string) :
  NoDup (Dict.keys e) -> NoDup (Dict.keys (Dict.update e bs)).
Proof.
  unfold Dict.update. revert e.
  induction bs as [|[k0 v0] bs IH]; simpl; intros e ND; [assumption|].
  apply IH. now apply NoDup_set.
Qed.

Lemma mem_update (e bs : Dict.t string) k :
  Dict.mem k e = true \/ In k (Dict.keys bs) -> Dict.mem k (Dict.update e bs) = true.
Proof.
  unfold Dict.update. revert e.
  induction bs as [|[k0 v0] bs IH]; simpl; intros e H.
  - destruct H as [H|[]]; assumption.
  - apply IH. rewrite mem_set. destruct H as [H|[H|H]].
    + left. rewrite H. apply orb_true_r.
    + left. subst k0. now rewrite String.eqb_refl.
    + now right.
Qed.

Lemma keys_update_mem (e bs : Dict.t string) :
  (forall k, In k (Dict.keys bs) -> Dict.mem k e = true) ->
  Dict.keys (Dict.update e bs) = Dict.keys e.
Proof.
  unfold Dict.update. revert e.
  induction bs as [|[k0 v0] bs IH]; simpl; intros e H; [reflexivity|].
  rewrite IH.
  - apply keys_set_mem. apply H. now left.
  - intros k Hk. rewrite mem_set. rewrite (H k) by now right. apply orb_true_r.
Qed.

Lemma update_app (e b1 b2 : Dict.t string) :
  Dict.update e (b1 ++ b2)%list = Dict.update (Dict.update e b1) b2.
Proof. unfold Dict.update. apply fold_left_app. Qed.

(** Writing the bindings [bs] a second time changes nothing. *)
Lemma update_twice (e bs : Dict.t string) :
  NoDup (Dict.keys e) ->
  Dict.update (Dict.update e bs) bs = Dict.update e bs.
Proof.
  intros ND. apply dict_ext.
  - apply keys_update_mem. intros k Hk. apply mem_update. now right.
  - apply NoDup_update. now apply NoDup_update.
  - intros k. rewrite !get_update_fold. apply overwrite_twice.
Qed.

Lemma update_nil (d : Dict.t string) :
  NoDup (Dict.keys d) -> Dict.update [] d = d.
Proof.
  intros ND.
  assert (G : forall e, (forall k, In k (Dict.keys d) -> Dict.mem k e = false) ->
                        Dict.update e d = (e ++ d)%list).
  { unfold Dict.update. induction d as [|[k0 v0] d IH]; simpl; intros e H.
    - now rewrite app_nil_r.
    - inversion ND as [|? ? Hn ND']; subst.
      rewrite IH; auto.
      + rewrite set_not_mem by (apply H; now left).
        now rewrite <- app_assoc.
      + intros k Hk. rewrite mem_set. rewrite (H k) by now right.
        rewrite orb_false_r. apply String.eqb_neq. intros ->. contradiction. }
  apply (G []). reflexivity.
Qed.

(** *** Service lists seen through the names of their entries *)

Lemma option_eqb_true a b : option_eqb a b = true <-> a = b.
Proof.
  destruct a as [x|], b as [y|]; simpl; split; try discriminate; try reflexivity.
  - intros H. apply String.eqb_eq in H. now subst.
  - intros [= ->]. apply String.eqb_refl.
Qed.

Lemma option_eqb_false a b : option_eqb a b = false <-> a <> b.
Proof.
  destruct (option_eqb a b) eqn:E.
  - apply option_eqb_true in E. split; [discriminate|contradiction].
  - split; [|reflexivity]. intros _ H. apply option_eqb_true in H. congruence.
Qed.

(** C5, as the specification states it, fails for an entry without a
    name: [get('Name')] is [None] on both sides and the comparison holds,
    so the entry is not appended but merged into the first stored entry
    without a name, though no [Name] of the list equals a [Name] of the new
    entry.  Two services whose name line was a sentinel end as one. *)
Lemma nameless_entry_is_merged_not_appended :
  Dict.get "Name" [("Description", "Provides groceries")] = None
  /\ Dict.get "Name" [("Phone Numbers", "555-1111")] = None
  /\ merge_service [("Description", "Provides groceries")]
                   [[("Phone Numbers", "555-1111")]]
     = [[("Phone Numbers", "555-1111"); ("Description", "Provides groceries")]]
  /\ merge_service [("Description", "Provides groceries")]
                   [[("Phone Numbers", "555-1111")]]
     <> ([[("Phone Numbers", "555-1111")]]
         ++ [[("Description", "Provides groceries")]])%list
  /\ accumulate
       [lines ["Service/Program Level:"; "- Name: (missing)";
               "- Phone Numbers: 555-1111"];
        lines ["Service/Program Level:"; "- Name: not available";
               "- Description: Provides groceries"]]
     = [("Services",
         ServiceList [[("Phone Numbers", "555-1111");
                       ("Description", "Provides groceries")]])].
Proof. repeat split; try reflexivity. discriminate. Qed.

(** C5, amended.  The entries are compared by [get('Name')], an absent
    name being equal to an absent name.  A new entry whose name equals
    that of a stored entry updates the first such entry in place, field by
    field, the new value winning; the list keeps its length and its other
    entries.  A new entry whose name differs from the name of every stored
    entry is appended, so that entries of different names stay apart.
    Merging [Food Bank] with its phone number and then [Food Bank] with its
    description, each parsed under the service section, leaves one entry
    with [Name], [Phone Numbers] and [Description]; merging [Shelter] after
    [Food Bank] leaves two. *)
Theorem service_dedup :
  (forall new before e after,
      (forall x, In x before -> Dict.get "Name" x <> Dict.get "Name" new) ->
      Dict.get "Name" e = Dict.get "Name" new ->
      merge_service new (before ++ e :: after)
      = (before ++ Dict.update e new :: after)%list
      /\ List.length (merge_service new (before ++ e :: after))
         = List.length (before ++ e :: after)
      /\ (NoDup (Dict.keys new) ->
          forall k, Dict.get k (Dict.update e new)
                    = match Dict.get k new with
                      | Some v => Some v
                      | None => Dict.get k e
                      end))
  /\ (forall new existing,
         (forall x, In x existing -> Dict.get "Name" x <> Dict.get "Name" new) ->
         merge_service new existing = (existing ++ [new])%list)
  /\ accumulate [food_bank_phone; food_bank_description]
     = [("Services",
         ServiceList [[("Name", "Food Bank"); ("Phone Numbers", "555-1111");
                       ("Description", "Provides groceries")]])]
  /\ accumulate [food_bank_phone; shelter_description]
     = [("Services",
         ServiceList [[("Name", "Food Bank"); ("Phone Numbers", "555-1111")];
                      [("Name", "Shelter");
                       ("Description", "Beds for the night")]])].
Proof.
  split; [|split; [|split; reflexivity]].
  - intros new before e after Hb He.
    assert (Hb' : forall x, In x before ->
                    option_eqb (Dict.get "Name" x) (Dict.get "Name" new) = false).
    { intros x Hx. apply option_eqb_false. now apply Hb. }
    assert (He' : option_eqb (Dict.get "Name" e) (Dict.get "Name" new) = true)
      by now apply option_eqb_true.
    rewrite (merge_service_match new before e after Hb' He').
    split; [reflexivity|split].
    + now rewrite !length_app.
    + intros ND k. now apply get_update.
  - intros new existing Hb. apply merge_service_fresh.
    intros x Hx. apply option_eqb_false. now apply Hb.
Qed.

Lemma service_dedup_witness :
  merge_service [("Name", "Food Bank"); ("Description", "Provides groceries")]
                ([[("Name", "Shelter")]]
                 ++ [("Name", "Food Bank"); ("Phone Numbers", "555-1111")]
                 :: [[("Name", "Clinic")]])
  = [[("Name", "Shelter")];
     [("Name", "Food Bank"); ("Phone Numbers", "555-1111");
      ("Description", "Provides groceries")];
     [("Name", "Clinic")]].
Proof.
  apply (proj1 service_dedup
           [("Name", "Food Bank"); ("Description", "Provides groceries")]
           [[("Name", "Shelter")]]
           [("Name", "Food Bank"); ("Phone Numbers", "555-1111")]
           [[("Name", "Clinic")]]).
  - intros x [<-|[]]. discriminate.
  - reflexivity.
Defined.

Lemma name_update e n :
  NoDup (Dict.keys n) -> name e = name n -> name (Dict.update e n) = name e.
Proof.
  unfold name. intros ND H. rewrite get_update by assumption.
  rewrite <- H. now destruct (Dict.get "Name" e).
Qed.

Lemma find_service_name X l e : find_service X l = Some e -> name e = X /\ In e l.
Proof.
  induction l as [|x l IH]; simpl; [discriminate|].
  destruct (option_eqb (name x) X) eqn:E.
  - intros [= <-]. apply option_eqb_true in E. auto.
  - intros H. destruct (IH H). auto.
Qed.

Lemma find_service_None X l : ~ In X (names l) -> find_service X l = None.
Proof.
  induction l as [|x l IH]; simpl; [reflexivity|]. intros H.
  destruct (option_eqb (name x) X) eqn:E.
  - apply option_eqb_true in E. tauto.
  - apply IH. tauto.
Qed.

Lemma find_merge_service X n l :
  NoDup (Dict.keys n) ->
  find_service X (merge_service n l) = absorb X (find_service X l) n.
Proof.
  intros ND. unfold absorb. induction l as [|e l IH]; simpl.
  - reflexivity.
  - fold (name e) (name n).
    destruct (option_eqb (name e) (name n)) eqn:En; simpl.
    + apply option_eqb_true in En. rewrite name_update by assumption.
      rewrite <- En. now destruct (option_eqb (name e) X).
    + rewrite IH. destruct (option_eqb (name e) X) eqn:Ex; [|reflexivity].
      apply option_eqb_true in Ex. subst X.
      apply option_eqb_false in En.
      assert (G : option_eqb (name n) (name e) = false)
        by (apply option_eqb_false; congruence).
      now rewrite G.
Qed.

Lemma names_merge_service n l :
  NoDup (Dict.keys n) ->
  names (merge_service n l)
  = if existsb (option_eqb (name n)) (names l) then names l
    else (names l ++ [name n])%list.
Proof.
  intros ND. induction l as [|e l IH]; simpl; [reflexivity|].
  fold (name e) (name n).
  destruct (option_eqb (name e) (name n)) eqn:En; simpl.
  - apply option_eqb_true in En. rewrite name_update by assumption.
    assert (G : option_eqb (name n) (name e) = true) by now apply option_eqb_true.
    now rewrite G.
  - apply option_eqb_false in En.
    assert (G : option_eqb (name n) (name e) = false)
      by (apply option_eqb_false; congruence).
    rewrite G. simpl. fold (names (merge_service n l)). rewrite IH.
    now destruct (existsb (option_eqb (name n)) (names l)).
Qed.

Lemma existsb_names X l : existsb (option_eqb X) l = true <-> In X l.
Proof.
  rewrite existsb_exists. split.
  - intros (y & Hy & E). apply option_eqb_true in E. now subst.
  - intros H. exists X. split; [assumption|]. now apply option_eqb_true.
Qed.

(** Two service lists with the same names in the same order, none
    repeated, and the same entry under every name are equal. *)
Lemma service_list_ext l1 l2 :
  names l1 = names l2 -> NoDup (names l1) ->
  (forall X, find_service X l1 = find_service X l2) -> l1 = l2.
Proof.
  revert l2. induction l1 as [|e1 l1 IH]; intros [|e2 l2]; simpl;
    try discriminate; [reflexivity|].
  intros [= Hn Hns] ND Hf. inversion ND as [|? ? Hnot ND']; subst.
  pose proof (Hf (name e2)) as H1.
  assert (R2 : option_eqb (name e2) (name e2) = true) by now apply option_eqb_true.
  rewrite Hn, R2 in H1. injection H1 as ->.
  f_equal. apply IH; auto.
  intros X. specialize (Hf X).
  destruct (option_eqb (name e2) X) eqn:E; [|exact Hf].
  apply option_eqb_true in E. subst X.
  rewrite (find_service_None _ l1) by assumption.
  rewrite (find_service_None _ l2) by now rewrite <- Hns.
  reflexivity.
Qed.

Lemma bindings_for_none X l :
  existsb (fun n => option_eqb (name n) X) l = false -> bindings_for X l = [].
Proof.
  induction l as [|n l IH]; simpl; [reflexivity|].
  destruct (option_eqb (name n) X); simpl; [discriminate|auto].
Qed.

Lemma fold_absorb X l o :
  all_nodup l ->
  fold_left (absorb X) l o
  = if existsb (fun n => option_eqb (name n) X) l
    then Some (Dict.update (or_empty o) (bindings_for X l))
    else o.
Proof.
  revert o. induction l as [|n l IH]; simpl; intros o Hl; [reflexivity|].
  assert (Hn : NoDup (Dict.keys n)) by (apply Hl; now left).
  rewrite IH by (intros d Hd; apply Hl; now right).
  unfold absorb. destruct (option_eqb (name n) X) eqn:E; simpl.
  - rewrite update_app.
    assert (G : Dict.update (or_empty o) n
                = match o with Some e => Dict.update e n | None => n end).
    { destruct o; simpl; [reflexivity|]. now apply update_nil. }
    rewrite G.
    destruct (existsb (fun n0 => option_eqb (name n0) X) l) eqn:Ex; [reflexivity|].
    rewrite bindings_for_none by assumption. reflexivity.
  - reflexivity.
Qed.

Lemma fold_absorb_twice X l o :
  all_nodup l -> NoDup (Dict.keys (or_empty o)) ->
  fold_left (absorb X) l (fold_left (absorb X) l o) = fold_left (absorb X) l o.
Proof.
  intros Hl Ho. rewrite (fold_absorb X l o) by assumption.
  destruct (existsb (fun n => option_eqb (name n) X) l) eqn:Ex.
  - rewrite fold_absorb by assumption. rewrite Ex. simpl.
    now rewrite update_twice.
  - rewrite fold_absorb by assumption. now rewrite Ex.
Qed.

Lemma find_merge_services X l existing :
  all_nodup l ->
  find_service X (merge_services existing l)
  = fold_left (absorb X) l (find_service X existing).
Proof.
  unfold merge_services. revert existing.
  induction l as [|n l IH]; simpl; intros existing Hl; [reflexivity|].
  rewrite IH by (intros d Hd; apply Hl; now right).
  rewrite find_merge_service by (apply Hl; now left). reflexivity.
Qed.

Lemma names_merge_service_incl n l X :
  NoDup (Dict.keys n) ->
  In X (names l) \/ X = name n -> In X (names (merge_service n l)).
Proof.
  intros ND H. rewrite names_merge_service by assumption.
  destruct (existsb (option_eqb (name n)) (names l)) eqn:E.
  - destruct H as [H| ->]; [assumption|]. now apply existsb_names.
  - apply in_or_app. destruct H as [H| ->]; [now left|right; now left].
Qed.

Lemma NoDup_names_merge_service n l :
  NoDup (Dict.keys n) -> NoDup (names l) -> NoDup (names (merge_service n l)).
Proof.
  intros ND Hl. rewrite names_merge_service by assumption.
  destruct (existsb (option_eqb (name n)) (names l)) eqn:E; [assumption|].
  apply NoDup_app; [assumption|repeat constructor; simpl; tauto|].
  intros X HX [<-|[]]. apply existsb_names in HX. congruence.
Qed.

Lemma names_merge_services l existing :
  all_nodup l -> NoDup (names existing) ->
  NoDup (names (merge_services existing l))
  /\ (forall X, In X (names existing) \/ In X (names l) ->
                In X (names (merge_services existing l))).
Proof.
  unfold merge_services. revert existing.
  induction l as [|n l IH]; simpl; intros existing Hl ND.
  - split; [assumption|]. intros X [H|[]]. assumption.
  - assert (Hn : NoDup (Dict.keys n)) by (apply Hl; now left).
    destruct (IH (merge_service n existing)) as [IH1 IH2].
    + intros d Hd. apply Hl. now right.
    + now apply NoDup_names_merge_service.
    + split; [assumption|]. intros X H. apply IH2.
      destruct H as [H|[H|H]]; auto.
      * left. apply names_merge_service_incl; auto.
      * left. apply names_merge_service_incl; auto.
Qed.

Lemma names_merge_services_known l existing :
  all_nodup l -> (forall X, In X (names l) -> In X (names existing)) ->
  names (merge_services existing l) = names existing.
Proof.
  unfold merge_services. revert existing.
  induction l as [|n l IH]; simpl; intros existing Hl H; [reflexivity|].
  assert (Hn : NoDup (Dict.keys n)) by (apply Hl; now left).
  assert (E : names (merge_service n existing) = names existing).
  { rewrite names_merge_service by assumption.
    assert (G : existsb (option_eqb (name n)) (names existing) = true).
    { apply existsb_names. apply H. now left. }
    now rewrite G. }
  rewrite IH.
  - exact E.
  - intros d Hd. apply Hl. now right.
  - intros X HX. rewrite E. apply H. now right.
Qed.

(** Merging the services of a page a second time changes nothing. *)
Lemma merge_services_twice l :
  all_nodup l ->
  merge_services (merge_services [] l) l = merge_services [] l.
Proof.
  intros Hl.
  destruct (names_merge_services l [] Hl (NoDup_nil _)) as [ND Hin].
  assert (Hn : names (merge_services (merge_services [] l) l)
               = names (merge_services [] l)).
  { apply names_merge_services_known; auto. }
  apply service_list_ext.
  - exact Hn.
  - now rewrite Hn.
  - intros X. rewrite !find_merge_services by assumption.
    apply fold_absorb_twice; [assumption|]. simpl. constructor.
Qed.

(** ** Merging the same text twice *)

Lemma set_last_In key value l l' d' :
  set_last key value l = Some l' -> In d' l' ->
  In d' l \/ exists d, In d l /\ d' = Dict.set key value d.
Proof.
  revert l'. induction l as [|d l IH]; simpl; intros l'; [discriminate|].
  destruct l as [|d2 l].
  - intros [= <-] [<-|[]]. right. exists d. auto.
  - destruct (set_last key value (d2 :: l)) as [l2|] eqn:E; simpl; [|discriminate].
    intros [= <-] [<-|H]; [left; now left|].
    destruct (IH l2 eq_refl H) as [G|(d0 & G & ->)].
    + left. now right.
    + right. exists d0. split; [now right|reflexivity].
Qed.

Lemma empty_section_well_formed section : well_formed section (empty_section section).
Proof.
  unfold empty_section. destruct (String.eqb section "Services") eqn:E; simpl.
  - apply String.eqb_eq in E. split; [assumption|]. intros d [].
  - apply String.eqb_neq in E. split; [assumption|constructor].
Qed.

Lemma parse_well_formed new_info temp :
  parse_new_info new_info = Some temp -> all_sections well_formed temp.
Proof.
  apply parse_new_info_inv; simpl.
  - apply empty_section_well_formed.
  - intros l [_ H]. split; [reflexivity|].
    intros d Hd. apply in_app_or in Hd. destruct Hd as [Hd|[<-|[]]]; auto.
    constructor.
  - intros l l' key value [_ H] _ L. split; [reflexivity|].
    intros d' Hd'. destruct (set_last_In _ _ _ _ _ L Hd') as [G|(d & G & ->)]; auto.
    apply NoDup_set. auto.
  - intros section d key value [NS H] _ _ _. split; [assumption|].
    now apply NoDup_set.
Qed.

Lemma merge_fields_fixed (existing d : Dict.t string) :
  (forall key value, In (key, value) d -> Dict.get key existing = Some value) ->
  merge_fields existing d = existing.
Proof.
  unfold merge_fields. induction d as [|[k v] d IH]; simpl; intros H; [reflexivity|].
  rewrite (H k v) by now left. rewrite Nat.ltb_irrefl. apply IH.
  intros key value Hin. apply H. now right.
Qed.

Lemma merge_fields_same (d : Dict.t string) :
  NoDup (Dict.keys d) -> merge_fields d d = d.
Proof.
  intros ND. apply merge_fields_fixed. intros key value. now apply In_get.
Qed.

Lemma merge_fields_fresh (existing d : Dict.t string) :
  NoDup (Dict.keys d) ->
  (forall key, In key (Dict.keys d) -> Dict.get key existing = None) ->
  merge_fields existing d = (existing ++ d)%list.
Proof.
  unfold merge_fields. revert existing.
  induction d as [|[k v] d IH]; simpl; intros existing ND H.
  - now rewrite app_nil_r.
  - inversion ND as [|? ? Hn ND']; subst.
    rewrite (H k) by now left.
    assert (M : Dict.mem k existing = false)
      by (unfold Dict.mem; now rewrite (H k) by now left).
    rewrite IH; auto.
    + rewrite set_not_mem by assumption. now rewrite <- app_assoc.
    + intros key Hk. rewrite get_set.
      destruct (String.eqb key k) eqn:E.
      * apply String.eqb_eq in E. subst key. contradiction.
      * apply H. now right.
Qed.

Lemma set_set {V : Type} (d : Dict.t V) k v v' :
  Dict.set k v (Dict.set k v' d) = Dict.set k v d.
Proof.
  induction d as [|[k0 v0] d IH]; simpl.
  - now rewrite String.eqb_refl.
  - destruct (String.eqb k k0) eqn:E; simpl.
    + now rewrite String.eqb_refl.
    + rewrite E. now rewrite IH.
Qed.

Lemma merge_section_fresh found section data :
  Dict.mem section found = false -> well_formed section data ->
  merge_section found (section, data)
  = Some (found ++ [merged_alone (section, data)])%list.
Proof.
  intros M W. unfold merge_section. rewrite M. cbv zeta.
  rewrite get_set_same. unfold empty_section, merged_alone. cbn [fst snd].
  destruct data as [d|l]; destruct W as [W1 W2].
  - apply String.eqb_neq in W1. rewrite W1.
    rewrite set_set, set_not_mem by assumption.
    now rewrite merge_fields_fresh by auto.
  - subst section. rewrite String.eqb_refl.
    now rewrite set_set, set_not_mem by assumption.
Qed.

Lemma merge_info_fresh temp found :
  NoDup (Dict.keys found ++ Dict.keys temp) -> all_sections well_formed temp ->
  merge_info found temp = Some (found ++ map merged_alone temp)%list.
Proof.
  revert found. induction temp as [|[section data] temp IH];
    cbn [merge_info map]; intros found ND W.
  - now rewrite app_nil_r.
  - rewrite merge_section_fresh.
    + rewrite IH.
      * now rewrite <- app_assoc.
      * unfold Dict.keys in *. rewrite map_app, <- app_assoc. exact ND.
      * intros s d H. apply (W s d). now right.
    + destruct (Dict.mem section found) eqn:M; [|reflexivity].
      exfalso. apply NoDup_remove_2 in ND. apply ND. apply in_or_app. left.
      unfold Dict.mem in M. destruct (Dict.get section found) eqn:G; [|discriminate].
      apply get_In in G. apply (in_map fst) in G. exact G.
    + apply (W section data). now left.
Qed.

Lemma merge_section_again temp section data :
  NoDup (Dict.keys temp) -> all_sections well_formed temp ->
  In (section, data) temp ->
  merge_section (map merged_alone temp) (section, data)
  = Some (map merged_alone temp).
Proof.
  intros ND W Hin.
  assert (G : Dict.get section (map merged_alone temp)
              = Some (snd (merged_alone (section, data)))).
  { apply In_get.
    - unfold Dict.keys. rewrite map_map. exact ND.
    - change (section, snd (merged_alone (section, data)))
        with (merged_alone (section, data)). now apply in_map. }
  unfold merge_section, Dict.mem. rewrite G.
  pose proof (W section data Hin) as Wd.
  destruct data as [d|l]; destruct Wd as [W1 W2]; simpl in *.
  - apply String.eqb_neq in W1. rewrite W1, G.
    rewrite merge_fields_same by assumption. now rewrite set_same.
  - subst section. rewrite String.eqb_refl, G.
    rewrite merge_services_twice by assumption. now rewrite set_same.
Qed.

Lemma merge_info_fixed found temp :
  (forall sd, In sd temp -> merge_section found sd = Some found) ->
  merge_info found temp = Some found.
Proof.
  induction temp as [|sd temp IH]; cbn [merge_info]; intros H; [reflexivity|].
  rewrite (H sd) by now left. apply IH. intros sd' Hin. apply H. now right.
Qed.

Lemma update_twice_Some new_info r :
  _update_found_info new_info [] = Some r -> _update_found_info new_info r = Some r.
Proof.
  unfold _update_found_info.
  destruct (parse_new_info new_info) as [temp|] eqn:E; [|discriminate].
  pose proof (parse_well_formed _ _ E) as W.
  pose proof (parse_new_info_keys _ _ E) as ND.
  rewrite merge_info_fresh by assumption. intros [= <-]. simpl.
  apply merge_info_fixed. intros [section data] Hin.
  now apply merge_section_again.
Qed.

(** C4.  For every extraction text, merging it twice into the empty
    record gives the record that merging it once gives (the record is the
    same as well when the text makes the merge raise, which leaves the
    record empty both times); and a value of the same length as the stored
    one leaves the stored one in place. *)
Theorem remerge_idempotent :
  (forall new_info,
      found_after new_info (found_after new_info []) = found_after new_info [])
  /\ (forall new_info r,
         _update_found_info new_info [] = Some r ->
         _update_found_info new_info r = Some r)
  /\ (forall d key old value,
         Dict.get key d = Some old -> String.length value = String.length old ->
         merge_field d (key, value) = d).
Proof.
  split; [|split].
  - intros new_info. unfold found_after at 2 3.
    destruct (_update_found_info new_info []) as [r|] eqn:E.
    + unfold found_after. now rewrite (update_twice_Some _ _ E).
    + unfold found_after. now rewrite E.
  - exact update_twice_Some.
  - intros d key old value G L. simpl. rewrite G, L.
    now rewrite Nat.ltb_irrefl.
Qed.

Lemma remerge_idempotent_witness :
  _update_found_info food_bank_phone
    [("Services", ServiceList [[("Name", "Food Bank"); ("Phone Numbers", "555-1111")]])]
  = Some [("Services",
           ServiceList [[("Name", "Food Bank"); ("Phone Numbers", "555-1111")]])].
Proof.
  apply (proj1 (proj2 remerge_idempotent) food_bank_phone).
  reflexivity.
Defined.

(** ** The custom mode *)

(** C1, at the inputs on which the code departs from it.  In custom mode a
    response with the marker [EXTRACTED_INFO:] reaches the call of
    [self._parse_custom_info], which the class does not define: the call
    raises, nothing is parsed and nothing is merged into the [Custom]
    section (which is created empty when it was absent), and the other
    sections are untouched.  In a crawl the handler of the visit catches
    the error: the page that was fetched ends in the failed set and the
    record holds an empty [Custom] section. *)
Theorem custom_extraction_raises :
  (forall self analysis,
      Py.contains "EXTRACTED_INFO:" analysis = true ->
      let (self', r) := update_custom _parse_custom_info self analysis in
      r = Raise "'WebsiteAnalyzer' object has no attribute '_parse_custom_info'"
      /\ custom_found (found_info self') = custom_found (found_info self)
      /\ (forall section, section <> "Custom" ->
            Dict.get section (found_info self') = Dict.get section (found_info self)))
  /\ (let (self', r) :=
        analyze_website_nat Run.urlparse Run.urljoin (fun l => l) Run.scrape
                            Run.llm_custom Run.parse_custom 5 Run.home
                            (Some "phone number") init in
      found_info self' = [("Custom", Fields [])]
      /\ meta r = Failed Run.home
                    "'WebsiteAnalyzer' object has no attribute '_parse_custom_info'"
      /\ failed_urls self' = [Run.home]).
Proof.
  split; [|vm_compute; repeat split; reflexivity].
  intros self analysis M. unfold update_custom, _parse_custom_info, custom_found.
  rewrite M. unfold Dict.mem.
  destruct (Dict.get "Custom" (found_info self)) as [data|] eqn:G.
  - cbn [fst]. rewrite G. repeat split; reflexivity.
  - cbn [found_info with_found]. rewrite get_set_same. cbn [fields_of].
    repeat split; try reflexivity.
    intros section NS. rewrite get_set.
    apply String.eqb_neq in NS. now rewrite NS.
Qed.

Lemma custom_extraction_raises_witness :
  let (self', r) :=
    update_custom _parse_custom_info
      (with_found init [("Custom", Fields [("Phone", "555")])])
      Run.custom_analysis in
  r = Raise "'WebsiteAnalyzer' object has no attribute '_parse_custom_info'"
  /\ custom_found (found_info self')
     = custom_found (found_info (with_found init [("Custom", Fields [("Phone", "555")])]))
  /\ (forall section, section <> "Custom" ->
        Dict.get section (found_info self')
        = Dict.get section
            (found_info (with_found init [("Custom", Fields [("Phone", "555")])]))).
Proof.
  apply (proj1 custom_extraction_raises
           (with_found init [("Custom", Fields [("Phone", "555")])])
           Run.custom_analysis).
  reflexivity.
Defined.

(** ** Facts about strings *)

Lemma append_empty_r (s : string) : s ++ EmptyString = s.
Proof. induction s as [|c s IH]; simpl; [reflexivity|now rewrite IH]. Qed.

Lemma append_assoc (a b c : string) : (a ++ b) ++ c = a ++ (b ++ c).
Proof. induction a as [|x a IH]; simpl; [reflexivity|now rewrite IH]. Qed.

Lemma contains_prefix sub s : Py.contains sub s = false -> String.prefix sub s = false.
Proof. destruct s; simpl; intros H; apply orb_false_iff in H; tauto. Qed.

(** A text without the separator is the only piece of its split. *)
Lemma split_absent sep s :
  Py.contains sep s = false -> Py.split sep s = [s].
Proof.
  unfold Py.split.
  assert (G : forall cur, Py.contains sep s = false ->
                          Py.split_go sep s 0 cur = [cur ++ s]).
  { induction s as [|c s IH]; intros cur H.
    - simpl. now rewrite append_empty_r.
    - cbn [Py.split_go]. rewrite (contains_prefix _ _ H).
      simpl in H. apply orb_false_iff in H. destruct H as [_ H].
      rewrite IH by assumption. now rewrite append_assoc. }
  intros H. now rewrite G.
Qed.

(** ** The resolution of the next URL *)

(** C7, as the specification states it, fails for the empty value.  The
    output [NEXT_URL: (no further pages)] has an empty value once the
    parenthesised commentary is cut; the resolver then tries the base URL
    itself, which matches the first available link, and without any link
    the same-domain fallback returns the base URL. *)
Lemma empty_next_url_is_followed :
  let analysis := "NEXT_URL: (no further pages)" in
  nth_error (Py.split "NEXT_URL:" analysis) 1 = Some " (no further pages)"
  /\ next_url_value " (no further pages)" = EmptyString
  /\ _extract_next_urls Run.urlparse Run.urljoin (fun l => l)
       "http://example.com" ["http://example.com"] analysis
       ["http://example.com/about"]
     = ["http://example.com/about"]
  /\ _extract_next_urls Run.urlparse Run.urljoin (fun l => l)
       "http://example.com" ["http://example.com"] analysis []
     = ["http://example.com"].
Proof. repeat split; reflexivity. Qed.

(** C7, amended.  Whatever the available links, the base URL and the
    visited set, the resolution of the next URL returns no URL when the
    marker [NEXT_URL:] is absent from the model output, and when the value
    (the first line of what follows the marker, cut at an opening
    parenthesis and trimmed) is [none] in any mix of cases. *)
Theorem next_url_fails_soft
    (urlparse : string -> outcome ParseResult)
    (urljoin : string -> string -> outcome string)
    (iter : list string -> list string)
    (base : string) (visited : PySet.t) (analysis : string)
    (available_links : list string) :
  Py.contains "NEXT_URL:" analysis = false
  \/ (exists section,
         nth_error (Py.split "NEXT_URL:" analysis) 1 = Some section
         /\ Py.lower (next_url_value section) = "none") ->
  _extract_next_urls urlparse urljoin iter base visited analysis available_links = [].
Proof.
  unfold _extract_next_urls. intros [H|(section & H & N)].
  - now rewrite split_absent.
  - rewrite H, N. reflexivity.
Qed.

Lemma next_url_fails_soft_witness :
  _extract_next_urls Run.urlparse Run.urljoin (fun l => l)
    "http://example.com" ["http://example.com"]
    (lines ["NEXT_URL:"; "None (all fields were found)"])
    ["http://example.com/about"]
  = [].
Proof.
  apply next_url_fails_soft. right.
  exists (String (ascii_of_nat 10) "None (all fields were found)").
  split; reflexivity.
Defined.

(** ** The URL normaliser *)

Lemma prefix_cons a s1 c s2 :
  String.prefix (String a s1) (String c s2) = Ascii.eqb a c && String.prefix s1 s2.
Proof.
  change (String.prefix (String a s1) (String c s2))
    with (if ascii_dec a c then String.prefix s1 s2 else false).
  destruct (ascii_dec a c) as [->|N].
  - now rewrite Ascii.eqb_refl.
  - apply Ascii.eqb_neq in N. now rewrite N.
Qed.

Lemma prefix_empty s : String.prefix EmptyString s = true.
Proof. now destruct s. Qed.

Lemma prefix_of_empty a s : String.prefix (String a s) EmptyString = false.
Proof. reflexivity. Qed.

Lemma prefix_two c c' s :
  String.prefix "//" (String c (String c' s)) = Ascii.eqb c slash && Ascii.eqb c' slash.
Proof.
  rewrite !prefix_cons, prefix_empty, andb_true_r.
  now rewrite (Ascii.eqb_sym "/" c), (Ascii.eqb_sym "/" c').
Qed.

Lemma join_cons sep x l :
  l <> [] -> Py.join sep (x :: l) = x ++ sep ++ Py.join sep l.
Proof. destruct l; [contradiction|reflexivity]. Qed.

Lemma split_go_nonempty sep s skip cur : Py.split_go sep s skip cur <> [].
Proof.
  revert skip cur. induction s as [|c s IH]; intros skip cur; cbn [Py.split_go].
  - intros E. discriminate E.
  - destruct skip; [|apply IH].
    destruct (String.prefix sep (String c s)); [intros E; discriminate E|apply IH].
Qed.

Lemma split_go_step sep c s cur :
  Py.split_go sep (String c s) 0 cur
  = if String.prefix sep (String c s)
    then cur :: Py.split_go sep s (String.length sep - 1) EmptyString
    else Py.split_go sep s 0 (cur ++ String c EmptyString).
Proof. reflexivity. Qed.

Lemma split_go_skip sep c s k cur :
  Py.split_go sep (String c s) (S k) cur = Py.split_go sep s k cur.
Proof. reflexivity. Qed.

Lemma replace_collapse_aux n :
  forall s cur, (String.length s <= n)%nat ->
    Py.join "/" (Py.split_go "//" s 0 cur) = cur ++ collapse s.
Proof.
  induction n as [|n IH]; intros s cur L.
  - destruct s; [|simpl in L; lia]. simpl. now rewrite append_empty_r.
  - destruct s as [|c [|c' s]].
    + simpl. now rewrite append_empty_r.
    + cbn [Py.split_go]. now rewrite prefix_cons, prefix_of_empty, andb_false_r.
    + assert (L1 : (String.length (String c' s) <= n)%nat) by (simpl in *; lia).
      assert (L2 : (String.length s <= n)%nat) by (simpl in *; lia).
      rewrite split_go_step, prefix_two. cbn [collapse].
      destruct (Ascii.eqb c slash && Ascii.eqb c' slash) eqn:E.
      * change (String.length "//" - 1)%nat with 1%nat. rewrite split_go_skip.
        rewrite join_cons by apply split_go_nonempty.
        rewrite (IH s EmptyString L2). reflexivity.
      * rewrite (IH _ _ L1). now rewrite append_assoc.
Qed.

Lemma replace_collapse s : Py.replace "//" "/" s = collapse s.
Proof. unfold Py.replace, Py.split. now rewrite (replace_collapse_aux (String.length s)). Qed.

Lemma head_collapse s : head (collapse s) = head s.
Proof.
  destruct s as [|c [|c' s]]; simpl; try reflexivity.
  destruct (Ascii.eqb c slash && Ascii.eqb c' slash) eqn:E; [|reflexivity].
  apply andb_true_iff in E. destruct E as [E _]. apply Ascii.eqb_eq in E.
  now subst.
Qed.

Lemma head_is_slash_collapse s : head_is_slash (collapse s) = head_is_slash s.
Proof.
  pose proof (head_collapse s) as H.
  destruct (collapse s), s; simpl in *; congruence.
Qed.

Lemma prefix_two_head c s :
  String.prefix "//" (String c s) = Ascii.eqb c slash && head_is_slash s.
Proof.
  destruct s as [|c' s]; [|apply prefix_two].
  rewrite prefix_cons, prefix_of_empty. cbn [head_is_slash].
  now rewrite !andb_false_r.
Qed.

Lemma prefix_three c c' s :
  String.prefix "///" (String c (String c' s))
  = Ascii.eqb c slash && Ascii.eqb c' slash && head_is_slash s.
Proof.
  rewrite prefix_cons, prefix_two_head, (Ascii.eqb_sym "/" c).
  apply andb_assoc.
Qed.

(** Without a run of three slashes in the text, no doubled slash is left. *)
Lemma collapse_step c c' s :
  collapse (String c (String c' s))
  = if Ascii.eqb c slash && Ascii.eqb c' slash
    then String slash (collapse s)
    else String c (collapse (String c' s)).
Proof. reflexivity. Qed.

Lemma contains_step sub c s :
  Py.contains sub (String c s) = String.prefix sub (String c s) || Py.contains sub s.
Proof. reflexivity. Qed.

Lemma collapse_no_double n :
  forall s, (String.length s <= n)%nat ->
    Py.contains "///" s = false -> Py.contains "//" (collapse s) = false.
Proof.
  induction n as [|n IH]; intros s L H.
  - destruct s; [reflexivity|simpl in L; lia].
  - destruct s as [|c [|c' s]]; [reflexivity| |].
    + cbn [collapse]. rewrite contains_step, prefix_two_head.
      now rewrite andb_false_r.
    + assert (L1 : (String.length (String c' s) <= n)%nat) by (simpl in *; lia).
      assert (L2 : (String.length s <= n)%nat) by (simpl in *; lia).
      rewrite contains_step, prefix_three in H.
      apply orb_false_iff in H. destruct H as [H3 H].
      assert (Hs : Py.contains "///" s = false).
      { destruct s as [|c'' s]; [reflexivity|].
        rewrite contains_step in H.
        apply orb_false_iff in H. destruct H as [_ H]. exact H. }
      rewrite collapse_step.
      destruct (Ascii.eqb c slash && Ascii.eqb c' slash) eqn:E.
      * cbn [andb] in H3. rewrite contains_step, prefix_two_head.
        rewrite head_is_slash_collapse, H3, andb_false_r. cbn [orb].
        apply IH; assumption.
      * rewrite contains_step, prefix_two_head, head_is_slash_collapse.
        cbn [head_is_slash]. rewrite E. cbn [orb].
        apply IH; assumption.
Qed.

Lemma last_char_rstrip_by p s c :
  last_char (Py.rstrip_by p s) = Some c -> p c = false.
Proof.
  induction s as [|a s IH]; simpl; [discriminate|].
  destruct (Py.rstrip_by p s) as [|b r] eqn:E.
  - destruct (p a) eqn:Pa; simpl; [discriminate|]. now intros [= <-].
  - intros H. apply IH. exact H.
Qed.

Lemma last_char_map f s : last_char (Py.map_string f s) = option_map f (last_char s).
Proof.
  induction s as [|a s IH]; simpl; [reflexivity|].
  destruct s as [|b s]; [reflexivity|]. exact IH.
Qed.

Lemma lower_char_idem c : Py.lower_char (Py.lower_char c) = Py.lower_char c.
Proof. destruct c as [[] [] [] [] [] [] [] []]; reflexivity. Qed.

Lemma lower_idem s : Py.lower (Py.lower s) = Py.lower s.
Proof.
  unfold Py.lower. induction s as [|c s IH]; simpl; [reflexivity|].
  now rewrite lower_char_idem, IH.
Qed.

Lemma lower_char_slash c : Py.lower_char c = slash -> c = slash.
Proof.
  destruct c as [[] [] [] [] [] [] [] []]; intros H; try reflexivity;
    vm_compute in H; discriminate H.
Qed.

(** C9, at the input on which the code departs from it.  The comment of
    [_clean_url] says that the quotes and the extra slashes are removed,
    but [replace('//', '/')] makes one pass: on a run of three slashes a
    doubled slash is left after the scheme separator, in the cleaned URL
    and in the normal form. *)
Theorem triple_slash_not_collapsed :
  _clean_url "http://a.com///b" = "http://a.com//b"
  /\ _normalize_url Run.urlparse "http://a.com///b" = Return "http://a.com//b"
  /\ Py.contains "//" "a.com//b" = true.
Proof. repeat split; reflexivity. Qed.

(** Where the code does collapse the slashes.  For a URL string with a
    scheme separator, cleaning leaves what precedes the first separator as
    it is, and when no run of three slashes follows the separator no
    doubled slash is left there.  Whatever [urlparse] returns, the normal
    form is
    [scheme://host/path] of the cleaned URL in lower case and does not end
    with a slash.  [HTTP://Example.com//a//b/] and [http://example.com/a/b]
    have the same normal form. *)
Theorem normalize_url_shape (urlparse : string -> outcome ParseResult) :
  (forall url protocol rest,
      Py.split1 "://" (Py.strip_chars quotes url) = Some (protocol, rest) ->
      _clean_url url = protocol ++ "://" ++ Py.replace "//" "/" rest
      /\ (Py.contains "///" rest = false ->
          Py.contains "//" (Py.replace "//" "/" rest) = false))
  /\ (forall url normalized,
         _normalize_url urlparse url = Return normalized ->
         Py.lower normalized = normalized
         /\ last_char normalized <> Some slash
         /\ exists parsed,
              urlparse (_clean_url url) = Return parsed
              /\ normalized
                 = Py.lower (Py.rstrip_chars "/"
                               (scheme parsed ++ "://" ++ netloc parsed ++ path parsed)))
  /\ _normalize_url Run.urlparse "HTTP://Example.com//a//b/"
     = _normalize_url Run.urlparse "http://example.com/a/b".
Proof.
  split; [|split; [|reflexivity]].
  - intros url protocol rest H. unfold _clean_url. rewrite H. split; [reflexivity|].
    rewrite replace_collapse. apply (collapse_no_double (String.length rest)). lia.
  - intros url normalized. unfold _normalize_url.
    destruct (urlparse (_clean_url url)) as [parsed|msg]; simpl; [|discriminate].
    intros [= <-]. split; [apply lower_idem|]. split.
    + unfold Py.lower. rewrite last_char_map.
      destruct (last_char (Py.rstrip_chars "/" _)) as [c|] eqn:E; simpl; [|discriminate].
      intros [= H]. apply lower_char_slash in H. subst c.
      apply last_char_rstrip_by in E. discriminate E.
    + exists parsed. split; reflexivity.
Qed.

Lemma normalize_url_shape_witness :
  _clean_url "HTTP://Example.com//a//b/" = "HTTP" ++ "://" ++ Py.replace "//" "/" "Example.com//a//b/"
  /\ (Py.contains "///" "Example.com//a//b/" = false ->
      Py.contains "//" (Py.replace "//" "/" "Example.com//a//b/") = false).
Proof.
  apply (proj1 (normalize_url_shape Run.urlparse)
           "HTTP://Example.com//a//b/" "HTTP" "Example.com//a//b/").
  reflexivity.
Defined.

(** ** The crawl *)

Lemma contains_append_r sub a b :
  Py.contains sub b = true -> Py.contains sub (a ++ b) = true.
Proof.
  intros H. induction a as [|c a IH]; [exact H|].
  change (String c a ++ b) with (String c (a ++ b)).
  rewrite contains_step, IH. apply orb_true_r.
Qed.

Lemma prefix_append sub b : String.prefix sub (sub ++ b) = true.
Proof.
  induction sub as [|c sub IH]; [apply prefix_empty|].
  change (String c sub ++ b) with (String c (sub ++ b)).
  now rewrite prefix_cons, Ascii.eqb_refl, IH.
Qed.

Lemma contains_append_l sub b : Py.contains sub (sub ++ b) = true.
Proof.
  destruct (sub ++ b) as [|c s] eqn:E.
  - destruct sub; [reflexivity|discriminate].
  - rewrite contains_step, <- E, prefix_append. reflexivity.
Qed.

(** A line of a joined text occurs in the text. *)
Lemma contains_join sep x l : In x l -> Py.contains x (Py.join sep l) = true.
Proof.
  induction l as [|y l IH]; [intros []|].
  intros [->|H].
  - destruct l as [|z l].
    + simpl. rewrite <- (append_empty_r x) at 2. apply contains_append_l.
    + rewrite join_cons by discriminate. apply contains_append_l.
  - destruct l as [|z l]; [destruct H|].
    rewrite join_cons by discriminate.
    apply contains_append_r, contains_append_r. now apply IH.
Qed.

(** A joined text ends with its last two pieces. *)
Lemma join_ends sep l a b :
  exists pre, Py.join sep (l ++ [a; b]) = pre ++ a ++ sep ++ b.
Proof.
  induction l as [|x l [pre IH]].
  - exists EmptyString. reflexivity.
  - exists (x ++ sep ++ pre).
    change ((x :: l) ++ [a; b])%list with (x :: (l ++ [a; b]))%list.
    rewrite join_cons by (destruct l; discriminate).
    rewrite IH. now rewrite !append_assoc.
Qed.

Lemma mem_In x l : Py.mem x l = true <-> In x l.
Proof.
  unfold Py.mem. rewrite existsb_exists. split.
  - intros (y & H & E). apply String.eqb_eq in E. now subst.
  - intros H. exists x. split; [assumption|apply String.eqb_refl].
Qed.

Lemma mem_add x y s : Py.mem x (PySet.add y s) = String.eqb x y || Py.mem x s.
Proof.
  unfold PySet.add. destruct (Py.mem y s) eqn:E.
  - destruct (String.eqb x y) eqn:Exy; [|reflexivity].
    apply String.eqb_eq in Exy. subst. now rewrite E.
  - unfold Py.mem. rewrite existsb_app. simpl.
    rewrite orb_false_r. apply orb_comm.
Qed.

Lemma NoDup_add x s : NoDup s -> NoDup (PySet.add x s).
Proof.
  intros ND. unfold PySet.add. destruct (Py.mem x s) eqn:E; [assumption|].
  apply NoDup_app; [assumption|repeat constructor; simpl; tauto|].
  intros y Hy [H|[]]. subst y. apply mem_In in Hy. congruence.
Qed.

Section CrawlFacts.

Variable urlparse : string -> outcome ParseResult.
Variable urljoin : string -> string -> outcome string.
Variable iter : list string -> list string.
Variable scrape_website : string -> outcome scraped.
Variable llm_invoke : prompt -> outcome string.
Variable parse_custom : string -> outcome (Dict.t string).

Abbreviation visit :=
  (analyze_website_nat urlparse urljoin iter scrape_website llm_invoke parse_custom).

Lemma update_custom_sets self analysis :
  same_sets self (fst (update_custom parse_custom self analysis)).
Proof.
  unfold update_custom, same_sets.
  destruct (Py.contains "EXTRACTED_INFO:" analysis); [|simpl; auto].
  destruct (Dict.mem "Custom" (found_info self));
    destruct (parse_custom _); simpl; auto;
    match goal with
    | |- context [match ?g with _ => _ end] => destruct g as [[?|?]|]; simpl; auto
    end.
Qed.

Lemma update_default_sets self analysis :
  same_sets self (fst (update_default self analysis)).
Proof.
  unfold update_default, same_sets.
  destruct (if Py.contains "NEW_INFO:" analysis then _ else _); [|simpl; auto].
  destruct (Py.contains "STILL_MISSING:" analysis); simpl; auto.
Qed.

Lemma analyze_content_sets self scraped_data custom_extraction :
  same_sets self
    (fst (_analyze_content iter llm_invoke parse_custom self scraped_data
                           custom_extraction)).
Proof.
  unfold _analyze_content.
  destruct (llm_invoke _) as [analysis|msg]; [|unfold same_sets; simpl; auto].
  destruct (custom_mode custom_extraction).
  - pose proof (update_custom_sets self analysis) as H.
    destruct (update_custom parse_custom self analysis). exact H.
  - pose proof (update_default_sets self analysis) as H.
    destruct (update_default self analysis). exact H.
Qed.

Lemma set_base_frame self url self' :
  set_base urlparse self url = Return self' ->
  visited_urls self' = visited_urls self /\ failed_urls self' = failed_urls self
  /\ found_info self' = found_info self /\ missing_info self' = missing_info self
  /\ all_internal_links self' = all_internal_links self.
Proof.
  unfold set_base. destruct (Urllib.nonempty (base_of self)).
  - intros [= <-]. auto.
  - destruct (urlparse url); simpl; [|discriminate]. intros [= <-]. simpl. auto.
Qed.

(** The report that a call returns is the rendering of the analyzer that
    it leaves. *)
Lemma analyze_report depth url custom_extraction self :
  let (self', r) := visit depth url custom_extraction self in
  analysis r = _format_final_results iter self'
  \/ analysis r = report iter self' custom_extraction.
Proof.
  destruct depth as [|depth]; cbn [analyze_website_nat]; [left; reflexivity|].
  destruct (Py.mem url (visited_urls self) || Py.mem url (failed_urls self));
    [left; reflexivity|].
  destruct (set_base urlparse _ url) as [self1|msg]; [|left; reflexivity].
  destruct (scrape_website url) as [data|msg]; [|left; reflexivity].
  destruct (_analyze_content _ _ _ _ _ _) as [self3 [analysis|msg]];
    [|left; reflexivity].
  right. reflexivity.
Qed.

Section VisitedInvariant.

Variable J : PySet.t -> Prop.
Hypothesis J_add : forall s x, J s -> J (PySet.add x s).

Lemma follow_visited (v : string -> analyzer -> analyzer * result) next_urls self :
  (forall u s, J (visited_urls s) -> J (visited_urls (fst (v u s)))) ->
  J (visited_urls self) -> J (visited_urls (follow v next_urls self)).
Proof.
  intros Hv. unfold follow. revert self.
  induction next_urls as [|u l IH]; simpl; intros self H; [assumption|].
  apply IH. destruct (negb _ && negb _); auto.
Qed.

Lemma visit_visited depth :
  forall url custom_extraction self,
    J (visited_urls self) ->
    J (visited_urls (fst (visit depth url custom_extraction self))).
Proof.
  induction depth as [|depth IH]; intros url custom self H;
    cbn [analyze_website_nat]; [exact H|].
  destruct (Py.mem url (visited_urls self) || Py.mem url (failed_urls self));
    [exact H|].
  assert (H0 : J (visited_urls (mark_visited self url))) by (apply J_add, H).
  destruct (set_base urlparse _ url) as [self1|msg] eqn:B; [|exact H0].
  apply set_base_frame in B. destruct B as (B & _).
  destruct (scrape_website url) as [data|msg]; [|simpl; now rewrite B].
  match goal with
  | |- context [_analyze_content ?i ?l ?p ?s ?d ?c] =>
      pose proof (analyze_content_sets s d c) as F;
      destruct (_analyze_content i l p s d c) as [self3 [analysis|msg]]
  end; destruct F as (F & _); simpl in F.
  - cbn [fst]. apply follow_visited.
    + intros u s. apply IH.
    + now rewrite F, B.
  - simpl. now rewrite F, B.
Qed.

End VisitedInvariant.

End CrawlFacts.

(** ** The source URLs of the report *)

Lemma join_ends_after sep (l : list string) m1 m2 m3 a b :
  exists pre, Py.join sep (l ++ [m1; m2; m3; a; b]) = pre ++ a ++ sep ++ b.
Proof.
  change [m1; m2; m3; a; b] with ([m1; m2; m3] ++ [a; b])%list.
  rewrite app_assoc. apply join_ends.
Qed.

Lemma final_results_end iter self :
  exists pre,
    _format_final_results iter self
    = pre ++ "=== SOURCE URLS ===" ++ Py.nl ++ source_urls iter self.
Proof.
  unfold _format_final_results. rewrite !app_assoc. apply join_ends_after.
Qed.

Lemma custom_results_end iter self custom_query :
  exists pre,
    _format_custom_results iter self custom_query
    = pre ++ "=== SOURCE URLS ===" ++ Py.nl ++ source_urls iter self.
Proof.
  unfold _format_custom_results. rewrite !app_assoc. apply join_ends.
Qed.

(** C8, as the specification states it, fails: [visited_urls] is a set,
    and the report joins it in the order in which Python iterates over the
    set.  Here the iteration runs against the order of insertion, and the
    report of a crawl that visits the home page and then [/b] lists [/b]
    first. *)
Lemma source_urls_not_in_traversal_order :
  (forall l : list string, Permutation (rev l) l)
  /\ visited_urls
       (fst (analyze_website Run.urlparse Run.urljoin (@rev string) Run.scrape
                             Run.llm Run.parse_custom Run.home None 5 init))
     = [Run.home; Run.page_b]
  /\ source_urls (@rev string)
       (fst (analyze_website Run.urlparse Run.urljoin (@rev string) Run.scrape
                             Run.llm Run.parse_custom Run.home None 5 init))
     = "http://example.com/b, http://example.com"
  /\ source_urls (@rev string)
       (fst (analyze_website Run.urlparse Run.urljoin (@rev string) Run.scrape
                             Run.llm Run.parse_custom Run.home None 5 init))
     <> Py.join ", " [Run.home; Run.page_b].
Proof.
  split; [intros l; symmetry; apply Permutation_rev|].
  split; [reflexivity|]. split; [reflexivity|].
  vm_compute. discriminate.
Qed.

(** C8, amended.  For every crawl that starts with a visited set without
    repetition, the report ends with the section of the source URLs, which
    lists the visited URLs, each once, joined by a comma and a space, in
    the order in which the set is iterated: a permutation of the order of
    the visits. *)
Theorem source_urls_listed
    (urlparse : string -> outcome ParseResult)
    (urljoin : string -> string -> outcome string)
    (iter : list string -> list string)
    (scrape_website : string -> outcome scraped)
    (llm_invoke : prompt -> outcome string)
    (parse_custom : string -> outcome (Dict.t string))
    (url : string) (custom_extraction : option string) (depth : Z)
    (self : analyzer) :
  (forall l, Permutation (iter l) l) ->
  NoDup (visited_urls self) ->
  let (self', r) :=
    analyze_website urlparse urljoin iter scrape_website llm_invoke parse_custom
                    url custom_extraction depth self in
  let order := iter (visited_urls self') in
  Permutation order (visited_urls self') /\ NoDup order
  /\ exists pre,
       analysis r = pre ++ "=== SOURCE URLS ===" ++ Py.nl ++ Py.join ", " order.
Proof.
  intros Hp ND. unfold analyze_website.
  pose proof (visit_visited urlparse urljoin iter scrape_website llm_invoke
                parse_custom (@NoDup string) (fun s x => NoDup_add x s)
                (Z.to_nat depth) url custom_extraction self ND) as V.
  pose proof (analyze_report urlparse urljoin iter scrape_website llm_invoke
                parse_custom (Z.to_nat depth) url custom_extraction self) as R.
  destruct (analyze_website_nat _ _ _ _ _ _ _ _ _ _) as [self' r].
  cbn [fst] in V. cbv zeta. split; [apply Hp|]. split.
  - eapply Permutation_NoDup; [symmetry; apply Hp|exact V].
  - destruct R as [R|R]; rewrite R.
    + apply final_results_end.
    + unfold report. destruct (custom_mode custom_extraction).
      * apply custom_results_end.
      * apply final_results_end.
Qed.

Lemma source_urls_listed_witness :
  let (self', r) :=
    analyze_website Run.urlparse Run.urljoin (@rev string) Run.scrape Run.llm
                    Run.parse_custom Run.home None 5 init in
  let order := rev (visited_urls self') in
  Permutation order (visited_urls self') /\ NoDup order
  /\ exists pre,
       analysis r = pre ++ "=== SOURCE URLS ===" ++ Py.nl ++ Py.join ", " order.
Proof.
  apply (source_urls_listed Run.urlparse Run.urljoin (@rev string) Run.scrape
           Run.llm Run.parse_custom Run.home None 5%Z init).
  - intros l. symmetry. apply Permutation_rev.
  - simpl. constructor.
Defined.

(** ** The isolation of a fetch failure *)

Lemma final_contains_field iter self section d key value :
  section = "Agency Level" \/ section = "Site Level" ->
  Dict.get section (found_info self) = Some (Fields d) -> In (key, value) d ->
  Py.contains (key ++ ": " ++ value) (_format_final_results iter self) = true.
Proof.
  intros S G Hin. apply contains_join.
  assert (F : In (key ++ ": " ++ value) (format_section (found_info self) section)).
  { unfold format_section. rewrite G. right. apply in_or_app. left.
    change (key ++ ": " ++ value) with (format_field (key, value)).
    now apply in_map. }
  apply in_or_app. right. apply in_or_app.
  destruct S as [-> | ->]; [left; exact F|].
  right. apply in_or_app. left. exact F.
Qed.

Lemma format_services_In idx l service key value :
  In service l -> In key service_keys -> Dict.get key service = Some value ->
  In ("  " ++ key ++ ": " ++ value) (format_services idx l).
Proof.
  intros Hs Hk G. revert idx. induction l as [|s l IH]; intros idx; [destruct Hs|].
  cbn [format_services]. right. apply in_or_app.
  destruct Hs as [->|Hs].
  - left. apply in_flat_map. exists key. split; [assumption|].
    unfold format_service_field. rewrite G. now left.
  - right. right. now apply IH.
Qed.

Lemma final_contains_service iter self l service key value :
  Dict.get "Services" (found_info self) = Some (ServiceList l) ->
  In service l -> In key service_keys -> Dict.get key service = Some value ->
  Py.contains ("  " ++ key ++ ": " ++ value) (_format_final_results iter self) = true.
Proof.
  intros G Hs Hk Gk. apply contains_join. unfold _format_final_results.
  rewrite G. cbn [services_of].
  apply in_or_app. right. apply in_or_app. right. apply in_or_app. right.
  apply in_or_app. left.
  destruct l as [|s0 l0] eqn:E; [destruct Hs|].
  right. rewrite <- E in *. now apply format_services_In with (service := service).
Qed.

Lemma custom_contains_field iter self custom_query d key value :
  Dict.get "Custom" (found_info self) = Some (Fields d) -> In (key, value) d ->
  Py.contains (key ++ ": " ++ value)
              (_format_custom_results iter self custom_query) = true.
Proof.
  intros G Hin. apply contains_join. unfold _format_custom_results. rewrite G.
  apply in_or_app. right. apply in_or_app. left. right. apply in_or_app. left.
  change (key ++ ": " ++ value) with (format_field (key, value)).
  now apply in_map.
Qed.

Lemma report_shows_record iter self custom_extraction :
  shows_record custom_extraction (found_info self)
               (report iter self custom_extraction).
Proof.
  unfold shows_record, report. destruct (custom_mode custom_extraction) as [q|].
  - intros d key value. apply custom_contains_field.
  - split.
    + intros section d key value. apply final_contains_field.
    + intros l service key value. apply final_contains_service.
Qed.

Section FetchFailure.

Variable urlparse : string -> outcome ParseResult.
Variable urljoin : string -> string -> outcome string.
Variable iter : list string -> list string.
Variable scrape_website : string -> outcome scraped.
Variable llm_invoke : prompt -> outcome string.
Variable parse_custom : string -> outcome (Dict.t string).

Abbreviation visit_page :=
  (analyze_website_nat urlparse urljoin iter scrape_website llm_invoke parse_custom).

(** The visit of a page whose fetch raises: the error is caught there, the
    page joins the failed set, and the record and the missing set are left
    as they were. *)
Lemma visit_fetch_error depth url custom_extraction self msg :
  scrape_website url = Raise msg ->
  Py.mem url (visited_urls self) = false ->
  Py.mem url (failed_urls self) = false ->
  let (self', r) := visit_page (S depth) url custom_extraction self in
  found_info self' = found_info self /\ missing_info self' = missing_info self
  /\ failed_urls self' = PySet.add url (failed_urls self)
  /\ exists error, meta r = Failed url error.
Proof.
  intros HS HV HF. cbn [analyze_website_nat]. rewrite HV, HF. cbn [orb].
  destruct (set_base urlparse (mark_visited self url) url) as [self1|m] eqn:B.
  - apply set_base_frame in B. destruct B as (_ & B2 & B3 & B4 & _).
    rewrite HS. simpl. rewrite B2, B3, B4. simpl. eauto.
  - simpl. eauto.
Qed.

(** C2, amended.  Page A is fetched and analysed, its analysis proposes
    page B, and the fetch of B raises.  The call for A then returns
    normally, with the metadata of A and no error: B is in the failed set,
    the record and the missing set are those that the analysis of A left,
    and the report is the rendering of that record: it has every field of
    the field maps and, of each service entry, every field whose key is in
    the list of the formatter. *)
Theorem fetch_failure_isolated
    (page_a page_b : string) (custom_extraction : option string) (depth : nat)
    (self self1 self3 : analyzer) (scraped_data : scraped)
    (analysis_a msg : string) :
  Py.mem page_a (visited_urls self) = false ->
  Py.mem page_a (failed_urls self) = false ->
  set_base urlparse (mark_visited self page_a) page_a = Return self1 ->
  scrape_website page_a = Return scraped_data ->
  let self2 := add_links self1 (internal_links scraped_data) in
  let data := with_links scraped_data (iter (all_internal_links self2)) in
  _analyze_content iter llm_invoke parse_custom self2 data custom_extraction
  = (self3, Return analysis_a) ->
  Py.contains "NEXT_URL:" analysis_a = true ->
  _extract_next_urls urlparse urljoin iter (base_of self3) (visited_urls self3)
                     analysis_a (internal_links data) = [page_b] ->
  Py.mem page_b (visited_urls self3) = false ->
  Py.mem page_b (failed_urls self3) = false ->
  scrape_website page_b = Raise msg ->
  let (self', r) := visit_page (S (S depth)) page_a custom_extraction self in
  Py.mem page_b (failed_urls self') = true
  /\ found_info self' = found_info self3
  /\ missing_info self' = missing_info self3
  /\ meta r = Page (title data) (page_url data) (internal_links data)
  /\ analysis r = report iter self' custom_extraction
  /\ shows_record custom_extraction (found_info self3) (analysis r).
Proof.
  intros HV HF HB HS self2 data HA HN HE HVb HFb HSb.
  remember (S depth) as depth' eqn:D.
  cbn [analyze_website_nat]. rewrite HV, HF. cbn [orb]. rewrite HB, HS.
  fold self2. fold data. rewrite HA, HN, HE.
  unfold follow. cbn [fold_left]. rewrite HVb, HFb. cbn [negb andb].
  pose proof (visit_fetch_error depth page_b custom_extraction self3 msg
                HSb HVb HFb) as E.
  rewrite <- D in E.
  destruct (visit_page depth' page_b custom_extraction self3) as [self' r'].
  destruct E as (E1 & E2 & E3 & _). cbn [fst analysis meta].
  split; [rewrite E3, mem_add, String.eqb_refl; reflexivity|].
  repeat split; try assumption.
  rewrite <- E1. apply report_shows_record.
Qed.

End FetchFailure.

Lemma fetch_failure_isolated_witness :
  let (self', r) :=
    analyze_website_nat Run.urlparse Run.urljoin (fun l => l) Run.scrape Run.llm
                        Run.parse_custom 5 Run.home None init in
  Py.mem Run.page_b (failed_urls self') = true
  /\ found_info self' = found_info Run.after_home
  /\ missing_info self' = missing_info Run.after_home
  /\ meta r = Page "Home" Run.home [Run.page_b]
  /\ analysis r = report (fun l => l) self' None
  /\ shows_record None (found_info Run.after_home) (analysis r).
Proof.
  apply (fetch_failure_isolated Run.urlparse Run.urljoin (fun l => l) Run.scrape
           Run.llm Run.parse_custom Run.home Run.page_b None 3 init Run.based
           Run.after_home Run.home_data Run.home_analysis "404 Client Error");
    reflexivity.
Defined.

(** C2, as the specification states it, fails for a service field whose
    key is not in the list of the formatter.  The analysis of the home page
    merges the field [Website] of the service [Food Bank] and proposes
    [/b], whose fetch raises: the failure is absorbed and the field is in
    the record, but the report that the call returns does not have it. *)
Lemma merged_service_field_not_in_report :
  Run.scrape Run.page_b = Raise "404 Client Error"
  /\ Py.mem Run.page_b
       (failed_urls
          (fst (analyze_website_nat Run.urlparse Run.urljoin (fun l => l) Run.scrape
                  Run.llm_website Run.parse_custom 5 Run.home None init)))
     = true
  /\ meta (snd (analyze_website_nat Run.urlparse Run.urljoin (fun l => l) Run.scrape
                  Run.llm_website Run.parse_custom 5 Run.home None init))
     = Page "Home" Run.home [Run.page_b]
  /\ found_info
       (fst (analyze_website_nat Run.urlparse Run.urljoin (fun l => l) Run.scrape
               Run.llm_website Run.parse_custom 5 Run.home None init))
     = [("Services",
         ServiceList [[("Name", "Food Bank"); ("Website", "foodbank.org")]])]
  /\ Py.contains "foodbank.org"
       (analysis
          (snd (analyze_website_nat Run.urlparse Run.urljoin (fun l => l) Run.scrape
                  Run.llm_website Run.parse_custom 5 Run.home None init)))
     = false
  /\ Py.contains "Name: Food Bank"
       (analysis
          (snd (analyze_website_nat Run.urlparse Run.urljoin (fun l => l) Run.scrape
                  Run.llm_website Run.parse_custom 5 Run.home None init)))
     = true.
Proof. repeat split; vm_compute; reflexivity. Qed.

(** ** The shape of the record *)

Lemma merge_service_In new existing d :
  In d (merge_service new existing) ->
  d = new \/ In d existing \/ exists e, In e existing /\ d = Dict.update e new.
Proof.
  induction existing as [|e l IH]; simpl.
  - intros [<-|[]]. now left.
  - destruct (option_eqb (Dict.get "Name" e) (Dict.get "Name" new)).
    + intros [<-|H].
      * right. right. exists e. auto.
      * right. left. now right.
    + intros [<-|H]; [right; left; now left|].
      destruct (IH H) as [G|[G|(e0 & G & ->)]]; auto.
      right. right. exists e0. auto.
Qed.

Lemma merge_services_wf existing l :
  all_nodup existing -> all_nodup l -> all_nodup (merge_services existing l).
Proof.
  unfold merge_services. revert existing.
  induction l as [|n l IH]; simpl; intros existing He Hl; [assumption|].
  apply IH.
  - intros d Hd. destruct (merge_service_In _ _ _ Hd) as [->|[G|(e & G & ->)]].
    + apply Hl. now left.
    + now apply He.
    + apply NoDup_update. now apply He.
  - intros d Hd. apply Hl. now right.
Qed.

Lemma merge_fields_wf existing d :
  NoDup (Dict.keys existing) -> NoDup (Dict.keys (merge_fields existing d)).
Proof.
  unfold merge_fields. revert existing.
  induction d as [|[k v] d IH]; simpl; intros existing H; [assumption|].
  apply IH. destruct (Dict.get k existing) as [old|].
  - destruct (String.length old <? String.length v)%nat; [now apply NoDup_set|assumption].
  - now apply NoDup_set.
Qed.

(** The merge of a well-formed [temp_info] into a well-formed record does
    not meet a section of the wrong shape, and the record stays well
    formed. *)
Lemma merge_info_total found temp :
  all_sections well_formed found -> all_sections well_formed temp ->
  exists found', merge_info found temp = Some found'
                 /\ all_sections well_formed found'.
Proof.
  revert found. induction temp as [|[section data] temp IH];
    cbn [merge_info]; intros found Hf Ht; [eauto|].
  assert (Hd : well_formed section data) by (apply (Ht section data); now left).
  assert (M : exists found1, merge_section found (section, data) = Some found1).
  { unfold merge_section.
    set (found1 := if Dict.mem section found then found else _).
    assert (H1 : all_sections well_formed found1).
    { subst found1. destruct (Dict.mem section found); auto.
      apply all_sections_set; auto. apply empty_section_well_formed. }
    assert (G : exists x, Dict.get section found1 = Some x).
    { subst found1. unfold Dict.mem.
      destruct (Dict.get section found) eqn:E; [eauto|].
      rewrite get_set_same. eauto. }
    destruct G as [x G]. rewrite G.
    pose proof (all_sections_get _ _ _ _ H1 G) as Wx.
    destruct x as [d|l], data as [d'|l']; simpl in Wx, Hd;
      destruct Wx as [W1 _], Hd as [W2 _].
    - apply String.eqb_neq in W1. rewrite W1. eauto.
    - congruence.
    - congruence.
    - subst section. rewrite String.eqb_refl. eauto. }
  destruct M as [found1 M]. rewrite M. apply IH.
  - apply (merge_section_inv well_formed) with (found := found)
      (section := section) (data := data); auto.
    + apply empty_section_well_formed.
    + intros e l [_ He] [_ Hl]. split; [reflexivity|]. now apply merge_services_wf.
    + intros s e d [Hs He] _. split; [assumption|]. now apply merge_fields_wf.
  - intros s d H. apply (Ht s d). now right.
Qed.

(** On a well-formed record [_update_found_info] raises only where the
    parser does. *)
Lemma update_found_info_total new_info found temp :
  all_sections well_formed found -> parse_new_info new_info = Some temp ->
  exists found', _update_found_info new_info found = Some found'
                 /\ all_sections well_formed found'.
Proof.
  intros Hf P. unfold _update_found_info. rewrite P.
  apply merge_info_total; [assumption|]. eapply parse_well_formed; eauto.
Qed.

(** ** The sentinel filter in the service entries *)

Lemma update_In (e new : Dict.t string) kv :
  In kv (Dict.update e new) -> In kv e \/ In kv new.
Proof.
  unfold Dict.update. revert e.
  induction new as [|[k v] new IH]; simpl; intros e H; [now left|].
  apply IH in H. destruct H as [H|H]; [|now right; right].
  apply set_In in H. destruct H as [->|H]; auto.
Qed.

(** X7.  [_update_found_info] (app.py 280-286, 313-322): no field of a
    service entry of the accumulated record holds an empty value or a
    sentinel: in the service section the filter reads the very value that
    is stored. *)
Lemma service_values_filtered texts l service key value :
  Dict.get "Services" (accumulate texts) = Some (ServiceList l) ->
  In service l -> In (key, value) service ->
  value <> EmptyString /\ is_sentinel value = false.
Proof.
  intros G Hs Hkv.
  assert (A : all_sections services_filtered (accumulate texts)).
  { apply accumulate_inv.
    - intros new_info temp. apply parse_new_info_inv; simpl; auto.
      + intros s. unfold empty_section.
        destruct (String.eqb s "Services"); simpl; [intros ? ? ? []|exact I].
      + intros l0 H s k v Hin. apply in_app_or in Hin.
        destruct Hin as [Hin|[<-|[]]]; [eauto|intros []].
      + intros l0 l' k0 v0 H K L s k v Hin Hkv'.
        destruct (set_last_In _ _ _ _ _ L Hin) as [Hin'|(d & Hin' & ->)]; [eauto|].
        apply set_In in Hkv'. destruct Hkv' as [[= -> ->]|Hkv']; eauto.
    - apply merge_info_inv; simpl; auto.
      + intros s. unfold empty_section.
        destruct (String.eqb s "Services"); simpl; [intros ? ? ? []|exact I].
      + intros e l0 He Hl. unfold merge_services. revert e He.
        induction l0 as [|n l0 IH]; simpl; intros e He; [exact He|].
        apply IH.
        * intros s k v Hin. apply Hl. now right.
        * intros s k v Hin Hkv'.
          destruct (merge_service_In _ _ _ Hin) as [->|[Hin'|(e0 & Hin' & ->)]].
          -- apply (Hl n k v); [now left|assumption].
          -- eauto.
          -- apply update_In in Hkv'. destruct Hkv' as [Hkv'|Hkv']; [eauto|].
             apply (Hl n k v); [now left|assumption]. }
  apply get_In in G. pose proof (A _ _ G service key value Hs Hkv) as K.
  unfold keeps in K. apply andb_true_iff in K. destruct K as [K1 K2].
  apply negb_true_iff in K1, K2. split; [|exact K2].
  now apply String.eqb_neq.
Qed.

(** ** The record along a crawl *)

Section RecordInvariant.

Variable urlparse : string -> outcome ParseResult.
Variable urljoin : string -> string -> outcome string.
Variable iter : list string -> list string.
Variable scrape_website : string -> outcome scraped.
Variable llm_invoke : prompt -> outcome string.
Variable parse_custom : string -> outcome (Dict.t string).

Lemma update_custom_well_formed self analysis :
  all_sections well_formed (found_info self) ->
  all_sections well_formed
    (found_info (fst (update_custom parse_custom self analysis))).
Proof.
  intros W. unfold update_custom.
  destruct (Py.contains "EXTRACTED_INFO:" analysis); [|exact W].
  set (self1 := if Dict.mem "Custom" (found_info self) then self else _).
  assert (W1 : all_sections well_formed (found_info self1)).
  { subst self1. destruct (Dict.mem "Custom" (found_info self)); [exact W|].
    simpl. apply all_sections_set; [exact W|].
    simpl. split; [discriminate|constructor]. }
  clearbody self1.
  destruct (parse_custom _) as [parsed|msg]; [|exact W1].
  destruct (Dict.get "Custom" (found_info self1)) as [[d|l]|] eqn:G;
    try exact W1.
  simpl. apply all_sections_set; [exact W1|].
  pose proof (all_sections_get _ _ _ _ W1 G) as [_ ND].
  simpl. split; [discriminate|]. now apply NoDup_update.
Qed.

Lemma update_default_well_formed self analysis :
  all_sections well_formed (found_info self) ->
  all_sections well_formed (found_info (fst (update_default self analysis))).
Proof.
  intros W. unfold update_default.
  destruct (Py.contains "NEW_INFO:" analysis).
  - unfold _update_found_info.
    destruct (parse_new_info _) as [temp|] eqn:P; [|exact W].
    destruct (merge_info_total (found_info self) temp W (parse_well_formed _ _ P))
      as (found' & M & W').
    rewrite M. destruct (Py.contains "STILL_MISSING:" analysis); exact W'.
  - destruct (Py.contains "STILL_MISSING:" analysis); exact W.
Qed.

Lemma analyze_content_well_formed self scraped_data custom_extraction :
  all_sections well_formed (found_info self) ->
  all_sections well_formed
    (found_info (fst (_analyze_content iter llm_invoke parse_custom self
                                       scraped_data custom_extraction))).
Proof.
  intros W. unfold _analyze_content.
  destruct (llm_invoke _) as [analysis|msg]; [|exact W].
  destruct (custom_mode custom_extraction).
  - pose proof (update_custom_well_formed self analysis W) as H.
    destruct (update_custom parse_custom self analysis). exact H.
  - pose proof (update_default_well_formed self analysis W) as H.
    destruct (update_default self analysis). exact H.
Qed.

(** Along every crawl the record keeps a list under [Services] and field
    maps under the other names, none of them with a repeated key. *)
Lemma visit_well_formed depth :
  forall url custom_extraction self,
    all_sections well_formed (found_info self) ->
    all_sections well_formed
      (found_info (fst (analyze_website_nat urlparse urljoin iter scrape_website
                          llm_invoke parse_custom depth url custom_extraction
                          self))).
Proof.
  induction depth as [|depth IH]; intros url custom self W;
    cbn [analyze_website_nat]; [exact W|].
  destruct (Py.mem url (visited_urls self) || Py.mem url (failed_urls self));
    [exact W|].
  destruct (set_base urlparse _ url) as [self1|msg] eqn:B; [|exact W].
  apply set_base_frame in B. destruct B as (_ & _ & B & _). simpl in B.
  destruct (scrape_website url) as [data|msg]; [|simpl; now rewrite B].
  match goal with
  | |- context [_analyze_content ?i ?l ?p ?s ?d ?c] =>
      assert (F : all_sections well_formed (found_info (fst (_analyze_content i l p s d c))))
        by (apply analyze_content_well_formed; simpl; now rewrite B);
      destruct (_analyze_content i l p s d c) as [self3 [analysis|msg]]
  end; cbn [fst] in F; [|exact F].
  cbn [fst]. unfold follow.
  match goal with |- context [fold_left ?f ?l self3] => generalize l end.
  intros next_urls. revert self3 F.
  induction next_urls as [|u l IHl]; simpl; intros self3 F; [exact F|].
  apply IHl. destruct (negb _ && negb _); [now apply IH|exact F].
Qed.

End RecordInvariant.

(** * Further properties of the code *)

(** ** Texts without a section header *)

Lemma parse_line_no_header st raw :
  current_section st = None ->
  find_header sections (Py.upper (Py.strip raw)) = None ->
  parse_line st raw = Some st.
Proof.
  intros C H. unfold parse_line. cbv zeta. rewrite H, C. cbn [in_services].
  destruct (String.eqb (Py.strip raw) EmptyString); [reflexivity|].
  destruct (Py.contains ":" (Py.strip raw) && negb (Py.startswith "http" (Py.strip raw)));
    reflexivity.
Qed.

(** X1.  [_update_found_info] (app.py 260-304): the lines that come before
    any section header are ignored, so a text in which no line names a
    section merges nothing and raises nothing, whatever the record. *)
Theorem headerless_text_merges_nothing (new_info : string) (found : info) :
  headerless new_info = true -> _update_found_info new_info found = Some found.
Proof.
  unfold headerless, _update_found_info, parse_new_info. intros H.
  assert (G : forall ls st,
             current_section st = None ->
             forallb (fun raw =>
                        match find_header sections (Py.upper (Py.strip raw)) with
                        | None => true
                        | Some _ => false
                        end) ls = true ->
             parse_lines st ls = Some st).
  { induction ls as [|raw ls IH]; intros st C F; [reflexivity|].
    cbn [forallb] in F. apply andb_true_iff in F. destruct F as [F1 F2].
    cbn [parse_lines]. rewrite parse_line_no_header; auto.
    now destruct (find_header sections (Py.upper (Py.strip raw))). }
  rewrite (G _ parse_init eq_refl H). reflexivity.
Qed.

Lemma headerless_text_merges_nothing_witness :
  _update_found_info (lines ["- Name: Food Bank"; "- Phone Numbers: 555-1111"])
                     [("Agency Level", Fields [("Agency Name", "Helping Hands")])]
  = Some [("Agency Level", Fields [("Agency Name", "Helping Hands")])].
Proof.
  apply headerless_text_merges_nothing. reflexivity.
Defined.

(** ** A service line without a colon *)

Lemma parse_lines_app ls1 ls2 st :
  parse_lines st (ls1 ++ ls2)
  = match parse_lines st ls1 with
    | Some st' => parse_lines st' ls2
    | None => None
    end.
Proof.
  revert st. induction ls1 as [|l ls1 IH]; intros st; cbn [parse_lines app];
    [reflexivity|].
  destruct (parse_line st l); [apply IH|reflexivity].
Qed.

Lemma split1_absent sep s : Py.contains sep s = false -> Py.split1 sep s = None.
Proof.
  induction s as [|c s IH]; intros H; [reflexivity|].
  cbn [Py.split1]. rewrite (contains_prefix _ _ H).
  rewrite contains_step in H. apply orb_false_iff in H. destruct H as [_ H].
  now rewrite IH.
Qed.

Lemma contains_drop sep n s :
  Py.contains sep s = false -> Py.contains sep (Py.drop n s) = false.
Proof.
  revert s. induction n as [|n IH]; intros s H; [exact H|].
  destruct s as [|c s]; [exact H|]. cbn [Py.drop]. apply IH.
  rewrite contains_step in H. apply orb_false_iff in H. tauto.
Qed.

Lemma prefix_inv p s : String.prefix p s = true -> exists r, s = p ++ r.
Proof.
  revert s. induction p as [|a p IH]; intros s H; [exists s; reflexivity|].
  destruct s as [|c s]; [discriminate|].
  rewrite prefix_cons in H. apply andb_true_iff in H. destruct H as [E H].
  apply Ascii.eqb_eq in E. subst c. destruct (IH s H) as [r ->].
  exists r. reflexivity.
Qed.

Lemma parse_line_no_colon st raw :
  current_section st = Some "Services" -> current_service st = true ->
  find_header sections (Py.upper (Py.strip raw)) = None ->
  Py.startswith "- " (Py.strip raw) = true ->
  Py.contains ":" (Py.strip raw) = false ->
  parse_line st raw = None.
Proof.
  intros CS SV H D C. unfold parse_line. cbv zeta. rewrite H, CS.
  cbn [in_services]. rewrite String.eqb_refl.
  destruct (String.eqb (Py.strip raw) EmptyString) eqn:E.
  { apply String.eqb_eq in E. rewrite E in D. discriminate D. }
  destruct (Py.startswith "- Name:" (Py.strip raw)) eqn:N.
  { apply prefix_inv in N. destruct N as [r N]. rewrite N in C.
    change ("- Name:" ++ r) with ("- Name" ++ (":" ++ r)) in C.
    rewrite contains_append_r in C; [discriminate C|apply contains_append_l]. }
  cbn [option_map]. rewrite D, SV. cbn [andb].
  now rewrite split1_absent by now apply contains_drop.
Qed.

(** X2.  [_update_found_info] (app.py 275-286): once a service entry is
    open in the service section, a line that starts with a dash and a space
    and has no colon makes the unpacking of [split(':', 1)] raise, and the
    call raises whatever precedes and follows the line: nothing of the text
    is merged. *)
Theorem service_line_without_colon_raises
    (new_info : string) (found : info) (before after : list string)
    (raw : string) (st : parse_state) :
  Py.split Py.nl new_info = (before ++ raw :: after)%list ->
  parse_lines parse_init before = Some st ->
  current_section st = Some "Services" -> current_service st = true ->
  find_header sections (Py.upper (Py.strip raw)) = None ->
  Py.startswith "- " (Py.strip raw) = true ->
  Py.contains ":" (Py.strip raw) = false ->
  _update_found_info new_info found = None /\ found_after new_info found = found.
Proof.
  intros S P CS SV H D C.
  assert (G : _update_found_info new_info found = None).
  { unfold _update_found_info, parse_new_info. rewrite S, parse_lines_app, P.
    cbn [parse_lines]. now rewrite (parse_line_no_colon st raw). }
  split; [exact G|]. unfold found_after. now rewrite G.
Qed.

Lemma service_line_without_colon_raises_witness :
  _update_found_info
    (lines ["Agency Level:"; "Agency Name: Helping Hands";
            "Service/Program Level:"; "- Name: Food Bank"; "- open daily";
            "- Phone Numbers: 555-1111"])
    [("Site Level", Fields [("Name", "Main Office")])]
  = None
  /\ found_after
       (lines ["Agency Level:"; "Agency Name: Helping Hands";
               "Service/Program Level:"; "- Name: Food Bank"; "- open daily";
               "- Phone Numbers: 555-1111"])
       [("Site Level", Fields [("Name", "Main Office")])]
     = [("Site Level", Fields [("Name", "Main Office")])].
Proof.
  apply (service_line_without_colon_raises _ _
           ["Agency Level:"; "Agency Name: Helping Hands";
            "Service/Program Level:"; "- Name: Food Bank"]
           ["- Phone Numbers: 555-1111"] "- open daily"
           (mkParse (Some "Services")
                    [("Agency Level", Fields [("Agency Name", "Helping Hands")]);
                     ("Services", ServiceList [[("Name", "Food Bank")]])]
                    true));
    reflexivity.
Defined.

(** ** A page whose analysis raises *)

Section AnalysisFailure.

Variable urlparse : string -> outcome ParseResult.
Variable urljoin : string -> string -> outcome string.
Variable iter : list string -> list string.
Variable scrape_website : string -> outcome scraped.
Variable llm_invoke : prompt -> outcome string.
Variable parse_custom : string -> outcome (Dict.t string).

(** X3.  [analyze_website] (app.py 144-182) with [_analyze_content]
    (app.py 436-438): when, in the default mode, the text after [NEW_INFO:]
    of the response to a page that was fetched makes [_update_found_info]
    raise, the handler of the visit catches the error: the page is in the
    visited set and in the failed set, the call returns the error
    annotation, the record and the missing set are as before the visit
    (the [STILL_MISSING:] part of the response is dropped with the rest),
    no next URL is followed, and only the links of the page were added to
    the link superset. *)
Theorem parse_error_fails_fetched_page
    (url : string) (custom_extraction : option string) (depth : nat)
    (self self1 : analyzer) (scraped_data : scraped) (response : string) :
  Py.mem url (visited_urls self) = false ->
  Py.mem url (failed_urls self) = false ->
  set_base urlparse (mark_visited self url) url = Return self1 ->
  scrape_website url = Return scraped_data ->
  custom_mode custom_extraction = None ->
  let self2 := add_links self1 (internal_links scraped_data) in
  let data := with_links scraped_data (iter (all_internal_links self2)) in
  llm_invoke (DefaultPrompt (page_url data) (content data) (found_info self2)
                            (iter (missing_info self2)) (internal_links data))
  = Return response ->
  Py.contains "NEW_INFO:" response = true ->
  _update_found_info (slice "NEW_INFO:" "STILL_MISSING:" response) (found_info self)
  = None ->
  let (self', r) :=
    analyze_website_nat urlparse urljoin iter scrape_website llm_invoke
                        parse_custom (S depth) url custom_extraction self in
  meta r = Failed url "not enough values to unpack (expected 2, got 1)"
  /\ Py.mem url (visited_urls self') = true
  /\ Py.mem url (failed_urls self') = true
  /\ found_info self' = found_info self
  /\ missing_info self' = missing_info self
  /\ all_internal_links self'
     = PySet.update (all_internal_links self) (internal_links scraped_data).
Proof.
  intros HV HF HB HS HC self2 data HL HN HU.
  pose proof (set_base_frame _ _ _ _ HB) as (B1 & B2 & B3 & B4 & B5).
  cbn [mark_visited visited_urls failed_urls found_info missing_info
       all_internal_links] in B1, B2, B3, B4, B5.
  cbn [analyze_website_nat]. rewrite HV, HF. cbn [orb]. rewrite HB, HS.
  fold self2. fold data. unfold _analyze_content. rewrite HC, HL.
  unfold update_default. rewrite HN.
  assert (E : found_info self2 = found_info self) by exact B3.
  rewrite E, HU. cbn [bind handler fst snd meta].
  cbn [self2 add_links visited_urls failed_urls found_info missing_info
       all_internal_links].
  rewrite B1, B2, B3, B4, B5, !mem_add, String.eqb_refl. cbn [orb].
  repeat split; reflexivity.
Qed.

End AnalysisFailure.

Lemma parse_error_fails_fetched_page_witness :
  let (self', r) :=
    analyze_website_nat Run.urlparse Run.urljoin (fun l => l) Run.scrape
                        Run.llm_broken Run.parse_custom 5 Run.home None init in
  meta r = Failed Run.home "not enough values to unpack (expected 2, got 1)"
  /\ Py.mem Run.home (visited_urls self') = true
  /\ Py.mem Run.home (failed_urls self') = true
  /\ found_info self' = found_info init
  /\ missing_info self' = missing_info init
  /\ all_internal_links self'
     = PySet.update (all_internal_links init) (internal_links Run.home_data).
Proof.
  apply (parse_error_fails_fetched_page Run.urlparse Run.urljoin (fun l => l)
           Run.scrape Run.llm_broken Run.parse_custom Run.home None 4 init
           Run.based Run.home_data Run.broken_analysis);
    reflexivity.
Defined.

(** ** What a merge keeps *)

Lemma merge_field_mono (d : Dict.t string) kv key value :
  Dict.get key d = Some value ->
  exists value', Dict.get key (merge_field d kv) = Some value'
                 /\ (String.length value <= String.length value')%nat.
Proof.
  intros G. destruct kv as [k v]. cbn [merge_field].
  destruct (Dict.get k d) as [old|] eqn:Gk.
  - destruct (String.length old <? String.length v)%nat eqn:L; [|eauto].
    rewrite get_set. destruct (String.eqb key k) eqn:E; [|eauto].
    apply String.eqb_eq in E. subst k. rewrite G in Gk. injection Gk as <-.
    apply Nat.ltb_lt in L. exists v. split; [reflexivity|lia].
  - rewrite get_set. destruct (String.eqb key k) eqn:E; [|eauto].
    apply String.eqb_eq in E. subst k. congruence.
Qed.

Lemma merge_fields_mono (data d : Dict.t string) key value :
  Dict.get key d = Some value ->
  exists value', Dict.get key (merge_fields d data) = Some value'
                 /\ (String.length value <= String.length value')%nat.
Proof.
  unfold merge_fields. revert d value.
  induction data as [|kv data IH]; intros d value G; cbn [fold_left]; [eauto|].
  destruct (merge_field_mono d kv key value G) as (v1 & G1 & L1).
  destruct (IH _ _ G1) as (v2 & G2 & L2). exists v2. split; [exact G2|lia].
Qed.

Lemma merge_section_mono found sd found' section key value :
  holds_field section key value found ->
  merge_section found sd = Some found' ->
  holds_field section key value found'.
Proof.
  intros (d & v & G & Gk & L). destruct sd as [section0 data].
  unfold merge_section.
  set (found1 := if Dict.mem section0 found then found else _).
  assert (G1 : Dict.get section found1 = Some (Fields d)).
  { subst found1. destruct (Dict.mem section0 found) eqn:M; [exact G|].
    rewrite get_set. destruct (String.eqb section section0) eqn:E; [|exact G].
    apply String.eqb_eq in E. subst section0.
    unfold Dict.mem in M. now rewrite G in M. }
  clearbody found1.
  destruct (String.eqb section0 "Services") eqn:ES.
  - destruct (Dict.get section0 found1) as [[e|l]|] eqn:G0;
      destruct data as [d'|l']; try discriminate.
    intros [= <-]. exists d, v. split; [|auto].
    rewrite get_set. destruct (String.eqb section section0) eqn:E; [|exact G1].
    apply String.eqb_eq in E. subst section0. congruence.
  - destruct (Dict.get section0 found1) as [[e|l]|] eqn:G0;
      destruct data as [d'|l']; try discriminate.
    intros [= <-]. destruct (String.eqb section section0) eqn:E.
    + apply String.eqb_eq in E. subst section0.
      rewrite G1 in G0. injection G0 as <-.
      destruct (merge_fields_mono d' d key v Gk) as (v' & Gv & Lv).
      exists (merge_fields d d'), v'. rewrite get_set_same.
      split; [reflexivity|]. split; [exact Gv|lia].
    + exists d, v. rewrite get_set, E. auto.
Qed.

Lemma merge_info_mono temp found found' section key value :
  holds_field section key value found ->
  merge_info found temp = Some found' ->
  holds_field section key value found'.
Proof.
  revert found. induction temp as [|sd temp IH]; cbn [merge_info]; intros found H.
  - intros [= <-]. exact H.
  - destruct (merge_section found sd) as [found1|] eqn:M; [|discriminate].
    apply IH. eapply merge_section_mono; eauto.
Qed.

(** X4.  [_update_found_info] (app.py 323-328): a merge that returns never
    removes a field of a field map and never replaces its value by a
    shorter one: the field is still there, with a value at least as long. *)
Theorem merge_never_shortens_a_field
    (new_info : string) (found found' : info) (section key value : string)
    (d : Dict.t string) :
  _update_found_info new_info found = Some found' ->
  Dict.get section found = Some (Fields d) ->
  Dict.get key d = Some value ->
  exists d' value',
    Dict.get section found' = Some (Fields d')
    /\ Dict.get key d' = Some value'
    /\ (String.length value <= String.length value')%nat.
Proof.
  unfold _update_found_info. intros U G Gk.
  destruct (parse_new_info new_info) as [temp|]; [|discriminate].
  apply (merge_info_mono temp found found' section key value); [|exact U].
  exists d, value. auto.
Qed.

Lemma merge_never_shortens_a_field_witness :
  exists d' value',
    Dict.get "Agency Level"
      [("Agency Level", Fields [("Description", "Food and shelter")])]
    = Some (Fields d')
    /\ Dict.get "Description" d' = Some value'
    /\ (String.length "Food and shelter" <= String.length value')%nat.
Proof.
  apply (merge_never_shortens_a_field
           (lines ["Agency Level:"; "Description: Food"])
           [("Agency Level", Fields [("Description", "Food and shelter")])]
           [("Agency Level", Fields [("Description", "Food and shelter")])]
           "Agency Level" "Description" "Food and shelter"
           [("Description", "Food and shelter")]);
    reflexivity.
Defined.

Lemma names_merge_services_prefix l existing :
  all_nodup l ->
  exists extra, names (merge_services existing l) = (names existing ++ extra)%list.
Proof.
  unfold merge_services. revert existing.
  induction l as [|n l IH]; cbn [fold_left]; intros existing Hl.
  - exists []. now rewrite app_nil_r.
  - destruct (IH (merge_service n existing)) as [extra E].
    { intros d Hd. apply Hl. now right. }
    rewrite E, names_merge_service by (apply Hl; now left).
    destruct (existsb (option_eqb (name n)) (names existing)).
    + now exists extra.
    + exists (name n :: extra). now rewrite <- app_assoc.
Qed.

Lemma merge_section_services found sd found' ns :
  well_formed (fst sd) (snd sd) ->
  services_begin_with ns found ->
  merge_section found sd = Some found' ->
  services_begin_with ns found'.
Proof.
  destruct sd as [section data]. cbn [fst snd].
  intros W (l & extra & G & N). unfold merge_section.
  destruct data as [d|l0]; destruct W as [W1 W2].
  - assert (E : String.eqb section "Services" = false) by now apply String.eqb_neq.
    assert (E' : String.eqb "Services" section = false)
      by (rewrite String.eqb_sym; exact E).
    rewrite E.
    set (found1 := if Dict.mem section found then found else _).
    assert (G1 : Dict.get "Services" found1 = Some (ServiceList l)).
    { subst found1. destruct (Dict.mem section found); [exact G|].
      now rewrite get_set, E'. }
    clearbody found1.
    destruct (Dict.get section found1) as [[e|l1]|]; try discriminate.
    intros [= <-]. exists l, extra. now rewrite get_set, E'.
  - subst section. unfold Dict.mem. rewrite G, String.eqb_refl, G.
    intros [= <-].
    destruct (names_merge_services_prefix l0 l W2) as [extra' E].
    exists (merge_services l l0), (extra ++ extra')%list.
    rewrite get_set_same. split; [reflexivity|].
    now rewrite E, N, <- app_assoc.
Qed.

(** X5.  [_update_found_info] (app.py 311-322): a merge that returns
    removes no service entry and does not reorder them: the names of the
    entries that were stored, in their order, begin the names of the
    entries after the merge, the new entries coming behind. *)
Theorem merge_keeps_the_services_in_order
    (new_info : string) (found found' : info) (l : list (Dict.t string)) :
  _update_found_info new_info found = Some found' ->
  Dict.get "Services" found = Some (ServiceList l) ->
  exists l' added,
    Dict.get "Services" found' = Some (ServiceList l')
    /\ map (Dict.get "Name") l' = (map (Dict.get "Name") l ++ added)%list.
Proof.
  unfold _update_found_info. intros U G.
  destruct (parse_new_info new_info) as [temp|] eqn:P; [|discriminate].
  pose proof (parse_well_formed _ _ P) as W. clear P.
  assert (H : services_begin_with (names l) found).
  { exists l, []. split; [exact G|]. now rewrite app_nil_r. }
  clear G. revert found H U.
  induction temp as [|sd temp IH]; cbn [merge_info]; intros found H.
  - intros [= <-]. exact H.
  - destruct (merge_section found sd) as [found1|] eqn:M; [|discriminate].
    apply IH.
    + intros s d Hin. apply (W s d). now right.
    + apply (merge_section_services found sd found1); auto.
      destruct sd as [s d]. apply (W s d). now left.
Qed.

Lemma merge_keeps_the_services_in_order_witness :
  exists l' added,
    Dict.get "Services"
      [("Services",
        ServiceList [[("Name", "Shelter")];
                     [("Name", "Food Bank"); ("Phone Numbers", "555-1111")];
                     [("Name", "Clinic")]])]
    = Some (ServiceList l')
    /\ map (Dict.get "Name") l'
       = (map (Dict.get "Name")
              [[("Name", "Shelter")]; [("Name", "Food Bank")]] ++ added)%list.
Proof.
  apply (merge_keeps_the_services_in_order
           (lines ["Service/Program Level:"; "- Name: Clinic";
                   "- Name: Food Bank"; "- Phone Numbers: 555-1111"])
           [("Services", ServiceList [[("Name", "Shelter")]; [("Name", "Food Bank")]])]);
    reflexivity.
Defined.

(** ** Service entries without a name *)

Lemma overwrite_absent (n : Dict.t string) k acc :
  Dict.get k n = None -> fold_left (overwrite k) n acc = acc.
Proof.
  revert acc. induction n as [|[k0 v0] n IH]; intros acc G; [reflexivity|].
  cbn [Dict.get] in G. cbn [fold_left]. unfold overwrite at 2. cbn [fst snd].
  destruct (String.eqb k k0); [discriminate|]. now apply IH.
Qed.

Lemma merge_service_nameless n existing :
  Dict.get "Name" n = None ->
  (exists e, In e existing /\ Dict.get "Name" e = None) ->
  List.length (merge_service n existing) = List.length existing
  /\ exists e, In e (merge_service n existing) /\ Dict.get "Name" e = None.
Proof.
  intros Hn. induction existing as [|x l IH]; intros (e & Hin & He);
    [destruct Hin|].
  cbn [merge_service]. rewrite Hn.
  destruct (Dict.get "Name" x) as [nx|] eqn:Gx; cbn [option_eqb].
  - destruct Hin as [->|Hin]; [congruence|].
    destruct IH as (L & e' & Hin' & He'); [eauto|].
    split; [cbn [List.length]; now rewrite L|].
    exists e'. split; [now right|exact He'].
  - split; [reflexivity|]. exists (Dict.update x n). split; [now left|].
    rewrite get_update_fold, Gx. now apply overwrite_absent.
Qed.

(** X6.  [_update_found_info] (app.py 313-322): [get('Name')] is [None]
    for an entry without a name and [None == None] holds, so the entries of
    a page that have no name (the name line was empty or a sentinel) are
    all merged into one: from the empty list, one entry is left. *)
Theorem nameless_services_merge_into_one (l : list (Dict.t string)) :
  l <> [] -> (forall n, In n l -> Dict.get "Name" n = None) ->
  List.length (merge_services [] l) = 1%nat.
Proof.
  intros NE H. destruct l as [|n0 l]; [contradiction|]. clear NE.
  unfold merge_services. cbn [fold_left merge_service].
  assert (G : forall existing,
             (exists e, In e existing /\ Dict.get "Name" e = None) ->
             (forall n, In n l -> Dict.get "Name" n = None) ->
             List.length (fold_left (fun acc n => merge_service n acc) l existing)
             = List.length existing).
  { clear H. induction l as [|n l IH]; intros existing He Hl; [reflexivity|].
    cbn [fold_left].
    destruct (merge_service_nameless n existing) as (L & He'); auto.
    - apply Hl. now left.
    - rewrite IH; auto. intros m Hm. apply Hl. now right. }
  rewrite G; [reflexivity| |].
  - exists n0. split; [now left|]. apply H. now left.
  - intros n Hn. apply H. now right.
Qed.

Lemma nameless_services_merge_into_one_witness :
  List.length (merge_services [] [[("Phone Numbers", "555-1111")];
                                  [("Description", "Groceries")]; []])
  = 1%nat.
Proof.
  apply nameless_services_merge_into_one.
  - discriminate.
  - intros n [<-|[<-|[<-|[]]]]; reflexivity.
Defined.

(** ** The cut at the first colon *)

Lemma prefix_char a c s :
  String.prefix (String a EmptyString) (String c s) = Ascii.eqb a c.
Proof. now rewrite prefix_cons, prefix_empty, andb_true_r. Qed.

Lemma contains_char_snoc a s c :
  Py.contains (String a EmptyString) (s ++ String c EmptyString)
  = Py.contains (String a EmptyString) s || Ascii.eqb a c.
Proof.
  induction s as [|x s IH].
  - cbn [append]. rewrite contains_step, prefix_char. cbn [Py.contains].
    now rewrite orb_false_r.
  - change (String x s ++ String c EmptyString)
      with (String x (s ++ String c EmptyString)).
    rewrite !contains_step, !prefix_char, IH. now rewrite orb_assoc.
Qed.

(** The first piece of a split at a character does not have the character. *)
Lemma first_split_char a s :
  Py.contains (String a EmptyString) (Py.first (Py.split (String a EmptyString) s))
  = false.
Proof.
  unfold Py.split, Py.first.
  assert (G : forall cur,
             Py.contains (String a EmptyString) cur = false ->
             Py.contains (String a EmptyString)
               (hd EmptyString (Py.split_go (String a EmptyString) s 0 cur)) = false).
  { induction s as [|c s IH]; intros cur H; [exact H|].
    rewrite split_go_step, prefix_char.
    destruct (Ascii.eqb a c) eqn:E; [exact H|].
    apply IH. now rewrite contains_char_snoc, H, E. }
  apply G. reflexivity.
Qed.

Lemma stored_value_colon_free key value :
  Py.contains "hour" (Py.lower key) = false ->
  Py.contains ":" (stored_value key value) = false.
Proof.
  intros H. unfold stored_value. rewrite H. cbn [andb].
  destruct (Py.contains ":" value) eqn:C; [|exact C].
  apply (first_split_char ":"%char).
Qed.

(** X8.  [_update_found_info] (app.py 299-304): after any sequence of
    merges into the empty record, the value of a field of a field map whose
    key does not contain [hour] has no colon: such a value is stored up to
    its first colon only, a URL as its scheme. *)
Theorem values_are_cut_at_the_first_colon :
  (forall texts section d key value,
      Dict.get section (accumulate texts) = Some (Fields d) ->
      In (key, value) d ->
      Py.contains "hour" (Py.lower key) = false ->
      Py.contains ":" value = false)
  /\ accumulate [lines ["Agency Level:"; "Website URLs: https://example.org";
                        "Days/Hours of Operation: Mon-Fri 9:00-17:00"]]
     = [("Agency Level",
         Fields [("Website URLs", "https");
                 ("Days/Hours of Operation", "Mon-Fri 9:00-17:00")])].
Proof.
  split; [|reflexivity].
  intros texts section d key value G Hin Hh.
  assert (A : all_sections colon_free (accumulate texts)).
  { apply accumulate_inv.
    - intros new_info temp. apply parse_new_info_inv; simpl; auto.
      + intros s. unfold empty_section. destruct (String.eqb s "Services"); simpl; tauto.
      + intros s d0 k v H _ _ _ k' v' Hin' Hh'. apply set_In in Hin'.
        destruct Hin' as [[= -> ->]|Hin']; [|eauto].
        now apply stored_value_colon_free.
    - apply merge_info_inv; simpl; auto.
      + intros s. unfold empty_section. destruct (String.eqb s "Services"); simpl; tauto.
      + intros s e d0 He Hd k v Hkv. apply merge_fields_In in Hkv.
        destruct Hkv; eauto. }
  apply get_In in G. exact (A _ _ G key value Hin Hh).
Qed.

Lemma values_are_cut_at_the_first_colon_witness :
  Py.contains ":" "https" = false.
Proof.
  apply (proj1 values_are_cut_at_the_first_colon
           [lines ["Agency Level:"; "Website URLs: https://example.org"]]
           "Agency Level" [("Website URLs", "https")] "Website URLs" "https").
  - reflexivity.
  - left. reflexivity.
  - reflexivity.
Defined.

(** ** The missing information of the report *)

(** A joined text ends with the join of its last pieces. *)
Lemma join_suffix sep (l t : list string) :
  t <> [] -> exists before, Py.join sep (l ++ t) = before ++ Py.join sep t.
Proof.
  intros NE. induction l as [|x l [before IH]].
  - exists EmptyString. reflexivity.
  - exists (x ++ sep ++ before).
    change ((x :: l) ++ t)%list with (x :: (l ++ t))%list.
    rewrite join_cons by (destruct l; [exact NE|discriminate]).
    rewrite IH. now rewrite !append_assoc.
Qed.

(** X9.  [_format_final_results] (app.py 357-366): the report ends with
    the section of the missing information, an empty line and the section
    of the source URLs.  The line of the missing information is made of the
    entries of the missing set that have no colon, and of them only, each
    one trimmed, in the order of the iteration and joined by a comma and a
    space; every entry with a colon is left out of it, and when no entry is
    left the line says that all mandatory information was found, as it does
    when every entry has the form [Section: Field] that the prompt asks
    for. *)
Theorem missing_line_lists_the_entries_without_colon
    (iter : list string -> list string) (self : analyzer) :
  let kept :=
    filter (fun item => negb (Py.contains ":" item)) (iter (missing_info self)) in
  (forall item,
      In item kept
      <-> In item (iter (missing_info self)) /\ Py.contains ":" item = false)
  /\ ((forall item, In item (iter (missing_info self)) ->
                    Py.contains ":" item = true) -> kept = [])
  /\ exists before,
       _format_final_results iter self
       = before ++ "=== MISSING INFORMATION ===" ++ Py.nl
         ++ match kept with
            | [] => "All mandatory information found"
            | _ => Py.join ", " (map Py.strip kept)
            end
         ++ Py.nl ++ Py.nl ++ "=== SOURCE URLS ===" ++ Py.nl ++ source_urls iter self.
Proof.
  cbv zeta. split; [|split].
  - intros item. rewrite filter_In. split; intros [H1 H2]; split; auto.
    + now apply negb_true_iff.
    + now apply negb_true_iff.
  - intros H.
    induction (iter (missing_info self)) as [|x l IH]; [reflexivity|].
    cbn [filter]. rewrite (H x) by now left. cbn [negb].
    apply IH. intros y Hy. apply H. now right.
  - unfold _format_final_results. rewrite !app_assoc.
    match goal with
    | |- context [Py.join Py.nl (?l ++ ?t)] =>
        destruct (join_suffix Py.nl l t) as [before E]; [discriminate|]
    end.
    exists before. rewrite E.
    destruct (filter _ (iter (missing_info self))); reflexivity.
Qed.

(** ** What the link resolver can return *)

Section ResolverFacts.

Variable urlparse : string -> outcome ParseResult.
Variable urljoin : string -> string -> outcome string.
Variable iter : list string -> list string.

Lemma match_available_In possible_urls available_links link :
  match_available urlparse possible_urls available_links = Return (Some link) ->
  In link available_links.
Proof.
  induction available_links as [|a l IH]; cbn [match_available]; [discriminate|].
  destruct (match_possible urlparse possible_urls a) as [[|]|msg]; cbn [bind].
  - intros [= <-]. now left.
  - intros H. right. now apply IH.
  - discriminate.
Qed.

Lemma same_domain_host base possible_urls u :
  same_domain urlparse base possible_urls = Return (Some u) ->
  exists parsed parsed_base,
    urlparse u = Return parsed /\ urlparse base = Return parsed_base
    /\ netloc parsed = netloc parsed_base.
Proof.
  induction possible_urls as [|p l IH]; cbn [same_domain]; [discriminate|].
  destruct (urlparse p) as [pp|msg] eqn:Ep; cbn [bind]; [|discriminate].
  destruct (urlparse base) as [pb|msg] eqn:Eb; cbn [bind]; [|discriminate].
  destruct (String.eqb (netloc pp) (netloc pb)) eqn:E.
  - intros [= <-]. apply String.eqb_eq in E. exists pp, pb. auto.
  - intros H. destruct (IH H) as (q & qb & H1 & H2 & H3).
    exists q, qb. auto.
Qed.

(** X10.  [_extract_next_urls] and [_normalize_and_validate_url] (app.py
    184-246): whatever the model output, the resolver returns at most one
    URL, never the empty string, and the URL is one of the available links
    or has the host of the base URL: the model cannot send the crawl to
    another site through a URL that was not scraped. *)
Theorem next_url_is_a_link_or_on_the_base_host
    (base : string) (visited : PySet.t) (analysis : string)
    (available_links : list string) :
  let next_urls :=
    _extract_next_urls urlparse urljoin iter base visited analysis available_links in
  (List.length next_urls <= 1)%nat
  /\ forall u, In u next_urls ->
       u <> EmptyString
       /\ (In u available_links
           \/ exists parsed parsed_base,
                urlparse u = Return parsed /\ urlparse base = Return parsed_base
                /\ netloc parsed = netloc parsed_base).
Proof.
  cbv zeta. unfold _extract_next_urls.
  destruct (nth_error (Py.split "NEXT_URL:" analysis) 1) as [section|];
    [|split; [cbn; lia|intros u []]].
  destruct (String.eqb (Py.lower (next_url_value section)) "none");
    [split; [cbn; lia|intros u []]|].
  match goal with
  | |- context [bind ?e ?k] => destruct (bind e k) as [[full|]|msg] eqn:E
  end; try (split; [cbn; lia|intros u []]).
  destruct (Urllib.nonempty full) eqn:NE; [|split; [cbn; lia|intros u []]].
  split; [cbn; lia|]. intros u [<-|[]]. split.
  - intros ->. discriminate NE.
  - destruct (if Py.startswith "/" (next_url_value section)
              then urljoin base (next_url_value section)
              else Return (next_url_value section)) as [next|msg];
      cbn [bind] in E; [|discriminate].
    unfold _normalize_and_validate_url in E.
    match type of E with
    | bind ?e _ = _ => destruct e as [possible|msg]; cbn [bind] in E; [|discriminate]
    end.
    destruct (match_available urlparse possible available_links)
      as [[link|]|msg] eqn:M; cbn [bind] in E; [| |discriminate].
    + injection E as <-. left. eapply match_available_In; eauto.
    + right. eapply same_domain_host; eauto.
Qed.

End ResolverFacts.

Lemma next_url_is_a_link_or_on_the_base_host_witness :
  Run.page_b <> EmptyString
  /\ (In Run.page_b [Run.page_b]
      \/ exists parsed parsed_base,
           Run.urlparse Run.page_b = Return parsed
           /\ Run.urlparse "http://example.com" = Return parsed_base
           /\ netloc parsed = netloc parsed_base).
Proof.
  apply (proj2 (next_url_is_a_link_or_on_the_base_host Run.urlparse Run.urljoin
                  (fun l => l) "http://example.com" [Run.home] Run.home_analysis
                  [Run.page_b])).
  left. reflexivity.
Defined.

(** ** The links that the scraper returns *)

Section ScraperFacts.

Variable urlparse : string -> outcome ParseResult.
Variable urljoin : string -> string -> outcome string.

Lemma add_link_on_site url links href links' :
  (forall l, In l links -> on_site urlparse url l) ->
  add_link urlparse urljoin url links href = Return links' ->
  forall l, In l links' -> on_site urlparse url l.
Proof.
  intros H. unfold add_link. destruct (followable href); [|now intros [= <-]].
  destruct (clean_href urlparse urljoin url href) as [h|msg]; cbn [bind];
    [|discriminate].
  destruct (urlparse h) as [ph|msg] eqn:Eh; cbn [bind]; [|discriminate].
  destruct (urlparse url) as [pu|msg] eqn:Eu; cbn [bind]; [|discriminate].
  destruct (String.eqb (netloc ph) (netloc pu)) eqn:E; intros [= <-]; [|exact H].
  intros l Hl. apply in_app_or in Hl. destruct Hl as [Hl|[<-|[]]]; [now apply H|].
  apply String.eqb_eq in E. exists ph, pu. rewrite Eu. auto.
Qed.

Lemma collect_links_on_site url hrefs :
  forall links links',
    (forall l, In l links -> on_site urlparse url l) ->
    collect_links urlparse urljoin url links hrefs = Return links' ->
    forall l, In l links' -> on_site urlparse url l.
Proof.
  induction hrefs as [|h hrefs IH]; intros links links' H; cbn [collect_links].
  - now intros [= <-].
  - destruct (add_link urlparse urljoin url links h) as [links1|msg] eqn:A;
      cbn [bind]; [|discriminate].
    apply IH. eapply add_link_on_site; eauto.
Qed.

Lemma collect_links_skips url hrefs :
  forall links,
    collect_links urlparse urljoin url links hrefs
    = collect_links urlparse urljoin url links (filter followable hrefs).
Proof.
  induction hrefs as [|h hrefs IH]; intros links; [reflexivity|].
  cbn [filter]. destruct (followable h) eqn:F.
  - cbn [collect_links].
    destruct (add_link urlparse urljoin url links h); cbn [bind];
      [apply IH|reflexivity].
  - cbn [collect_links]. unfold add_link at 1. rewrite F. cbn [bind]. apply IH.
Qed.

(** X11.  [scrape_website] (src/scraper.py 21-38): every link that the
    scraper returns parses with the host of the page, whatever form the
    href had, and the hrefs that are empty or begin with [#],
    [javascript:], [mailto:] or [tel:] have no effect on the list: the same
    links come out, in the same order, without them. *)
Theorem scraped_links_are_on_site (url : string) (hrefs : list string) :
  (forall links link,
      scrape_links urlparse urljoin url hrefs = Return links ->
      In link links ->
      exists parsed_link parsed_url,
        urlparse link = Return parsed_link /\ urlparse url = Return parsed_url
        /\ netloc parsed_link = netloc parsed_url)
  /\ scrape_links urlparse urljoin url hrefs
     = scrape_links urlparse urljoin url (filter followable hrefs).
Proof.
  split.
  - intros links link H Hin.
    apply (collect_links_on_site url hrefs [] links); auto. intros l [].
  - apply collect_links_skips.
Qed.

End ScraperFacts.

Lemma scraped_links_are_on_site_witness :
  exists parsed_link parsed_url,
    Run.urlparse "http://example.com/a/team" = Return parsed_link
    /\ Run.urlparse "http://example.com/a/page" = Return parsed_url
    /\ netloc parsed_link = netloc parsed_url.
Proof.
  apply (proj1 (scraped_links_are_on_site Run.urlparse Run.urljoin
                  "http://example.com/a/page"
                  ["#top"; "mailto:x@y.z"; "/about"; "//other.org/c"; "team";
                   "https://elsewhere.org/"])
           ["http://example.com/about"; "http://example.com/a/team"]).
  - reflexivity.
  - right. left. reflexivity.
Defined.

(** ** Invariants of the crawl *)

Lemma In_add x y s : In x s -> In x (PySet.add y s).
Proof.
  intros H. unfold PySet.add. destruct (Py.mem y s); [exact H|].
  apply in_or_app. now left.
Qed.

Lemma In_add_same y s : In y (PySet.add y s).
Proof. apply mem_In. now rewrite mem_add, String.eqb_refl. Qed.

Lemma In_update x s l : In x s -> In x (PySet.update s l).
Proof.
  unfold PySet.update. revert s.
  induction l as [|y l IH]; intros s H; [exact H|].
  cbn [fold_left]. apply IH. now apply In_add.
Qed.

Lemma length_add y s : (List.length (PySet.add y s) <= S (List.length s))%nat.
Proof.
  unfold PySet.add. destruct (Py.mem y s); [lia|].
  rewrite length_app. cbn. lia.
Qed.

Section CrawlInvariant.

Variable urlparse : string -> outcome ParseResult.
Variable urljoin : string -> string -> outcome string.
Variable iter : list string -> list string.
Variable scrape_website : string -> outcome scraped.
Variable llm_invoke : prompt -> outcome string.
Variable parse_custom : string -> outcome (Dict.t string).

Abbreviation crawl :=
  (analyze_website_nat urlparse urljoin iter scrape_website llm_invoke parse_custom).

(** A property of the analyzer that each step of a visit keeps; the
    analysis of the content changes the record and the missing set only,
    and the handler runs for a URL that is in the visited set. *)
Variable I : analyzer -> Prop.
Hypothesis I_mark : forall s u, I s -> I (mark_visited s u).
Hypothesis I_base : forall s u s', I s -> set_base urlparse s u = Return s' -> I s'.
Hypothesis I_links : forall s l, I s -> I (add_links s l).
Hypothesis I_content : forall s s', I s -> same_sets s s' -> I s'.
Hypothesis I_fail :
  forall s u msg, I s -> In u (visited_urls s) -> I (fst (handler iter s u msg)).

Lemma follow_inv (v : string -> analyzer -> analyzer * result) next_urls self :
  (forall u s, I s -> I (fst (v u s))) -> I self -> I (follow v next_urls self).
Proof.
  intros Hv. unfold follow. revert self.
  induction next_urls as [|u l IH]; cbn [fold_left]; intros self H; [exact H|].
  apply IH. destruct (negb _ && negb _); auto.
Qed.

Lemma crawl_inv depth :
  forall url custom_extraction self,
    I self -> I (fst (crawl depth url custom_extraction self)).
Proof.
  induction depth as [|depth IH]; intros url custom self H;
    cbn [analyze_website_nat]; [exact H|].
  destruct (Py.mem url (visited_urls self) || Py.mem url (failed_urls self));
    [exact H|].
  assert (V0 : In url (visited_urls (mark_visited self url))) by apply In_add_same.
  pose proof (I_mark self url H) as H0.
  destruct (set_base urlparse _ url) as [self1|msg] eqn:B; [|now apply I_fail].
  pose proof (I_base _ _ _ H0 B) as H1.
  apply set_base_frame in B. destruct B as (B & _).
  assert (V1 : In url (visited_urls self1)) by now rewrite B.
  destruct (scrape_website url) as [data|msg]; [|now apply I_fail].
  match goal with
  | |- context [_analyze_content ?i ?l ?p ?s ?d ?c] =>
      pose proof (analyze_content_sets i l p s d c) as F;
      pose proof (I_links self1 (internal_links data) H1) as H2;
      destruct (_analyze_content i l p s d c) as [self3 [analysis|msg]]
  end; cbn [fst] in F; pose proof (I_content _ _ H2 F) as H3;
    destruct F as (F & _); cbn [add_links visited_urls] in F.
  - cbn [fst]. apply follow_inv; [|exact H3]. intros u s. apply IH.
  - apply I_fail; [exact H3|]. now rewrite F.
Qed.

End CrawlInvariant.

Section CrawlProperties.

Variable urlparse : string -> outcome ParseResult.
Variable urljoin : string -> string -> outcome string.
Variable iter : list string -> list string.
Variable scrape_website : string -> outcome scraped.
Variable llm_invoke : prompt -> outcome string.
Variable parse_custom : string -> outcome (Dict.t string).

Abbreviation crawl_from :=
  (analyze_website_nat urlparse urljoin iter scrape_website llm_invoke parse_custom).

Lemma crawl_grows depth url custom_extraction self :
  grown_from self (fst (crawl_from depth url custom_extraction self)).
Proof.
  apply (crawl_inv urlparse urljoin iter scrape_website llm_invoke parse_custom
           (grown_from self)).
  - intros s u (H1 & H2 & H3). repeat split; auto.
    intros x Hx. cbn. apply In_add. now apply H1.
  - intros s u s' (H1 & H2 & H3) B.
    apply set_base_frame in B. destruct B as (B1 & B2 & _ & _ & B5).
    unfold grown_from. now rewrite B1, B2, B5.
  - intros s l (H1 & H2 & H3). repeat split; auto.
    intros x Hx. cbn. apply In_update. now apply H3.
  - intros s s' (H1 & H2 & H3) (F1 & F2 & _ & F4).
    unfold grown_from. now rewrite F1, F2, F4.
  - intros s u msg (H1 & H2 & H3) _. repeat split; auto.
    intros x Hx. cbn. apply In_add. now apply H2.
  - repeat split; apply incl_refl.
Qed.

(** X12.  [analyze_website] (app.py 136-182): within a crawl the visited
    set, the failed set and the link superset only grow; no URL of one of
    them is forgotten, which is what the guard against revisits relies
    on. *)
Theorem crawl_sets_only_grow
    (url : string) (custom_extraction : option string) (depth : Z)
    (self : analyzer) :
  let self' :=
    fst (analyze_website urlparse urljoin iter scrape_website llm_invoke
                         parse_custom url custom_extraction depth self) in
  (forall u, In u (visited_urls self) -> In u (visited_urls self'))
  /\ (forall u, In u (failed_urls self) -> In u (failed_urls self'))
  /\ (forall u, In u (all_internal_links self) -> In u (all_internal_links self')).
Proof.
  cbv zeta. unfold analyze_website.
  destruct (crawl_grows (Z.to_nat depth) url custom_extraction self)
    as (H1 & H2 & H3).
  repeat split; intros u Hu; [apply H1|apply H2|apply H3]; exact Hu.
Qed.

(** X13.  [analyze_website] (app.py 146-148): the base URL is derived on
    the first visit and frozen: once it is set to a non-empty string, no
    call changes it, whatever pages are visited. *)
Theorem base_url_is_frozen
    (url : string) (custom_extraction : option string) (depth : Z)
    (self : analyzer) (base : string) :
  base_url self = Some base -> base <> EmptyString ->
  base_url (fst (analyze_website urlparse urljoin iter scrape_website llm_invoke
                                 parse_custom url custom_extraction depth self))
  = Some base.
Proof.
  intros H NE. unfold analyze_website.
  apply (crawl_inv urlparse urljoin iter scrape_website llm_invoke parse_custom
           (fun s => base_url s = Some base)); auto.
  - intros s u s' Hs. unfold set_base, base_of. rewrite Hs.
    assert (N : Urllib.nonempty base = true).
    { unfold Urllib.nonempty. apply negb_true_iff. now apply String.eqb_neq. }
    rewrite N. now intros [= <-].
  - intros s s' Hs (_ & _ & F & _). now rewrite F.
Qed.

(** X14.  [analyze_website] (app.py 144, 178): a URL enters the failed set
    only in the handler of its own visit, after it was marked visited, so
    that every failed URL is a visited URL, and is listed among the source
    URLs of the report, whenever this holds at the start of the crawl. *)
Theorem failed_urls_are_visited
    (url : string) (custom_extraction : option string) (depth : Z)
    (self : analyzer) :
  (forall u, In u (failed_urls self) -> In u (visited_urls self)) ->
  let self' :=
    fst (analyze_website urlparse urljoin iter scrape_website llm_invoke
                         parse_custom url custom_extraction depth self) in
  forall u, In u (failed_urls self') -> In u (visited_urls self').
Proof.
  intros H. cbv zeta. unfold analyze_website.
  apply (crawl_inv urlparse urljoin iter scrape_website llm_invoke parse_custom
           (fun s => forall u, In u (failed_urls s) -> In u (visited_urls s)));
    auto.
  - intros s u Hs x Hx. cbn. apply In_add. now apply Hs.
  - intros s u s' Hs B x.
    apply set_base_frame in B. destruct B as (B1 & B2 & _).
    rewrite B1, B2. apply Hs.
  - intros s s' Hs (F1 & F2 & _) x. rewrite F1, F2. apply Hs.
  - intros s u msg Hs Hu x Hx. cbn in *.
    apply mem_In in Hx. rewrite mem_add in Hx. apply orb_true_iff in Hx.
    destruct Hx as [Hx|Hx].
    + apply String.eqb_eq in Hx. now subst.
    + apply Hs. now apply mem_In.
Qed.

End CrawlProperties.

Lemma base_url_is_frozen_witness :
  base_url (fst (analyze_website Run.urlparse Run.urljoin (fun l => l) Run.scrape
                                 Run.llm Run.parse_custom Run.page_b None 5
                                 Run.based))
  = Some "http://example.com".
Proof.
  apply base_url_is_frozen; [reflexivity|discriminate].
Defined.

Lemma failed_urls_are_visited_witness :
  In Run.page_b
     (visited_urls
        (fst (analyze_website Run.urlparse Run.urljoin (fun l => l) Run.scrape
                              Run.llm Run.parse_custom Run.home None 5 init))).
Proof.
  apply (failed_urls_are_visited Run.urlparse Run.urljoin (fun l => l) Run.scrape
           Run.llm Run.parse_custom Run.home None 5%Z init).
  - intros u [].
  - left. reflexivity.
Defined.

Section CrawlOutcome.

Variable urlparse : string -> outcome ParseResult.
Variable urljoin : string -> string -> outcome string.
Variable iter : list string -> list string.
Variable scrape_website : string -> outcome scraped.
Variable llm_invoke : prompt -> outcome string.
Variable parse_custom : string -> outcome (Dict.t string).

Abbreviation call :=
  (analyze_website_nat urlparse urljoin iter scrape_website llm_invoke parse_custom).

Lemma extract_next_urls_length base visited analysis available_links :
  (List.length (_extract_next_urls urlparse urljoin iter base visited analysis
                                   available_links) <= 1)%nat.
Proof.
  unfold _extract_next_urls.
  destruct (nth_error _ 1); [|cbn; lia].
  destruct (String.eqb _ "none"); [cbn; lia|].
  match goal with
  | |- context [bind ?e ?k] => destruct (bind e k) as [[full|]|msg]
  end; try (cbn; lia).
  destruct (Urllib.nonempty full); cbn; lia.
Qed.

(** X15.  [analyze_website] (app.py 136-182): the metadata of the result
    tells what the call did.  With the status [skipped] the analyzer is
    unchanged; with an error annotation the URL is in the failed set and in
    the visited set; with the metadata of a page the URL is in the visited
    set and the fetch of the URL returned the page that the metadata
    describe. *)
Theorem metadata_tells_the_outcome
    (depth : nat) (url : string) (custom_extraction : option string)
    (self : analyzer) :
  let (self', r) := call depth url custom_extraction self in
  match meta r with
  | Skipped u => u = url /\ self' = self
  | Failed u _ =>
      u = url /\ In url (failed_urls self') /\ In url (visited_urls self')
  | Page _ u _ =>
      In url (visited_urls self')
      /\ exists scraped_data,
           scrape_website url = Return scraped_data /\ u = page_url scraped_data
  end.
Proof.
  destruct depth as [|depth]; cbn [analyze_website_nat]; [cbn; auto|].
  destruct (Py.mem url (visited_urls self) || Py.mem url (failed_urls self));
    [cbn; auto|].
  assert (V0 : In url (visited_urls (mark_visited self url))) by apply In_add_same.
  destruct (set_base urlparse _ url) as [self1|msg] eqn:B.
  2:{ cbn. split; [reflexivity|]. split; [apply In_add_same|exact V0]. }
  apply set_base_frame in B. destruct B as (B & _).
  assert (V1 : In url (visited_urls self1)) by now rewrite B.
  destruct (scrape_website url) as [data|msg] eqn:S.
  2:{ cbn. split; [reflexivity|]. split; [apply In_add_same|exact V1]. }
  match goal with
  | |- context [_analyze_content ?i ?l ?p ?s ?d ?c] =>
      pose proof (analyze_content_sets i l p s d c) as F;
      destruct (_analyze_content i l p s d c) as [self3 [analysis|msg]]
  end; cbn [fst] in F; destruct F as (F & _); cbn [add_links visited_urls] in F.
  - cbn [meta]. split; [|exists data; split; reflexivity].
    assert (V3 : In url (visited_urls self3)) by now rewrite F.
    unfold follow.
    match goal with |- context [fold_left ?f ?l self3] => generalize l end.
    intros next_urls. clear F. revert self3 V3.
    induction next_urls as [|u l IH]; cbn [fold_left]; intros self3 V3;
      [exact V3|].
    destruct (negb _ && negb _).
    + pose proof (crawl_grows urlparse urljoin iter scrape_website llm_invoke
                    parse_custom depth u custom_extraction self3) as (G & _).
      apply IH. now apply G.
    + now apply IH.
  - cbn. split; [reflexivity|]. split; [apply In_add_same|now rewrite F].
Qed.

Lemma follow_length (v : string -> analyzer -> analyzer * result) next_urls self n :
  (List.length next_urls <= 1)%nat ->
  (forall u s, List.length (visited_urls (fst (v u s)))
               <= List.length (visited_urls s) + n)%nat ->
  (List.length (visited_urls (follow v next_urls self))
   <= List.length (visited_urls self) + n)%nat.
Proof.
  intros L Hv. unfold follow. destruct next_urls as [|u [|u' l]];
    cbn [fold_left]; [lia| |cbn in L; lia].
  destruct (negb _ && negb _); [apply Hv|lia].
Qed.

(** X16.  [analyze_website] with [_extract_next_urls] (app.py 136-206):
    the resolver proposes one URL at most and each recursive call has one
    unit of depth less, so a call with depth [d] adds at most [d] URLs to
    the visited set. *)
Theorem depth_bounds_the_visits
    (depth : nat) (url : string) (custom_extraction : option string)
    (self : analyzer) :
  (List.length (visited_urls (fst (call depth url custom_extraction self)))
   <= List.length (visited_urls self) + depth)%nat.
Proof.
  revert url self. induction depth as [|depth IH]; intros url self;
    cbn [analyze_website_nat]; [cbn; lia|].
  destruct (Py.mem url (visited_urls self) || Py.mem url (failed_urls self));
    [cbn; lia|].
  pose proof (length_add url (visited_urls self)) as L0.
  destruct (set_base urlparse _ url) as [self1|msg] eqn:B; [|cbn; lia].
  apply set_base_frame in B. destruct B as (B & _).
  cbn [mark_visited visited_urls] in B.
  destruct (scrape_website url) as [data|msg]; [|cbn; rewrite B; lia].
  match goal with
  | |- context [_analyze_content ?i ?l ?p ?s ?d ?c] =>
      pose proof (analyze_content_sets i l p s d c) as F;
      destruct (_analyze_content i l p s d c) as [self3 [analysis|msg]]
  end; cbn [fst] in F; destruct F as (F & _); cbn [add_links visited_urls] in F.
  - cbn [fst].
    match goal with
    | |- context [follow ?v ?l self3] =>
        pose proof (follow_length v l self3 depth) as FL
    end.
    etransitivity; [apply FL|rewrite F, B; lia].
    + destruct (Py.contains "NEXT_URL:" analysis);
        [apply extract_next_urls_length|cbn; lia].
    + intros u s. apply IH.
  - cbn. rewrite F, B. lia.
Qed.

End CrawlOutcome.

(** ** Clean URLs *)

Lemma drop_append p r : Py.drop (String.length p) (p ++ r) = r.
Proof. induction p as [|c p IH]; [reflexivity|exact IH]. Qed.

Lemma split1_parts sep s a b :
  Py.split1 sep s = Some (a, b) -> s = a ++ sep ++ b.
Proof.
  revert a. induction s as [|c s IH]; intros a; cbn [Py.split1]; [discriminate|].
  destruct (String.prefix sep (String c s)) eqn:P.
  - intros [= <- <-]. apply prefix_inv in P. destruct P as [r P].
    rewrite P at 2. rewrite drop_append. exact P.
  - destruct (Py.split1 sep s) as [[a' b']|]; [|discriminate].
    intros [= <- <-]. cbn [append]. f_equal. now apply IH.
Qed.

Lemma collapse_fixed n :
  forall s, (String.length s <= n)%nat ->
    Py.contains "//" s = false -> collapse s = s.
Proof.
  induction n as [|n IH]; intros s L H.
  - destruct s; [reflexivity|cbn in L; lia].
  - destruct s as [|c [|c' s]]; [reflexivity|reflexivity|].
    rewrite contains_step, prefix_two in H.
    apply orb_false_iff in H. destruct H as [H1 H2].
    rewrite collapse_step, H1. f_equal. apply IH; [cbn in *; lia|exact H2].
Qed.

(** X17.  [_clean_url] (app.py 118-126): a URL that has no quote at either
    end and no doubled slash after its first scheme separator, or no
    separator at all, is returned as it is; cleaning changes malformed URLs
    only. *)
Theorem clean_url_keeps_clean_urls (url : string) :
  Py.strip_chars quotes url = url ->
  match Py.split1 "://" url with
  | Some (_, rest) => Py.contains "//" rest = false
  | None => True
  end ->
  _clean_url url = url.
Proof.
  intros Q H. unfold _clean_url. rewrite Q.
  destruct (Py.split1 "://" url) as [[protocol rest]|] eqn:S; [|reflexivity].
  rewrite replace_collapse, (collapse_fixed (String.length rest)) by (lia || exact H).
  symmetry. now apply split1_parts.
Qed.

Lemma clean_url_keeps_clean_urls_witness :
  _clean_url "https://example.org/programs/food?day=mon"
  = "https://example.org/programs/food?day=mon".
Proof.
  apply clean_url_keeps_clean_urls; reflexivity.
Defined.

(** ** The same-domain fallback *)

(** X18.  [_normalize_and_validate_url] (app.py 208-246): for an absolute
    [http] or [https] URL whose host is the host of the base URL the
    answer is never [None]: when no available link matches, the fallback
    accepts the URL itself, so a page of the site that the model names in
    full is always followed. *)
Theorem absolute_url_on_the_base_host_is_resolved
    (urlparse : string -> outcome ParseResult)
    (urljoin : string -> string -> outcome string)
    (iter : list string -> list string)
    (base : string) (visited : PySet.t) (url : string)
    (available_links : list string)
    (parsed parsed_base : ParseResult) (answer : option string) :
  Py.startswith "http://" (_clean_url url)
  || Py.startswith "https://" (_clean_url url) = true ->
  urlparse (_clean_url url) = Return parsed ->
  urlparse base = Return parsed_base ->
  netloc parsed = netloc parsed_base ->
  _normalize_and_validate_url urlparse urljoin iter base visited url available_links
  = Return answer ->
  exists next,
    answer = Some next /\ (In next available_links \/ next = _clean_url url).
Proof.
  intros A P B N. unfold _normalize_and_validate_url. rewrite A. cbn [negb bind].
  destruct (match_available urlparse [_clean_url url] available_links)
    as [[link|]|msg] eqn:M; cbn [bind]; [| |discriminate].
  - intros [= <-]. exists link. split; [reflexivity|].
    left. eapply match_available_In; eauto.
  - cbn [same_domain]. rewrite P, B. cbn [bind]. rewrite N, String.eqb_refl.
    intros [= <-]. exists (_clean_url url). auto.
Qed.

Lemma absolute_url_on_the_base_host_is_resolved_witness :
  exists next,
    Some "http://example.com/volunteer" = Some next
    /\ (In next ["http://example.com/about"]
        \/ next = _clean_url "http://example.com/volunteer").
Proof.
  apply (absolute_url_on_the_base_host_is_resolved Run.urlparse Run.urljoin
           (fun l => l) "http://example.com" [Run.home]
           "http://example.com/volunteer" ["http://example.com/about"]
           (Urllib.urlparse "http://example.com/volunteer")
           (Urllib.urlparse "http://example.com"));
    reflexivity.
Defined.

Lemma service_values_filtered_witness :
  "555-1111" <> EmptyString /\ is_sentinel "555-1111" = false.
Proof.
  apply (service_values_filtered
           [lines ["Service/Program Level:"; "- Name: Food Bank";
                   "- Phone Numbers: 555-1111"; "- Eligibility: not specified"]]
           [[("Name", "Food Bank"); ("Phone Numbers", "555-1111")]]
           [("Name", "Food Bank"); ("Phone Numbers", "555-1111")]
           "Phone Numbers" "555-1111").
  - reflexivity.
  - left. reflexivity.
  - right. left. reflexivity.
Defined.
